(** * TouchSDF: a shallow embedding of the training driver, the inference
    script and the mesh utilities, with the properties of their specification.

    - [UtilsMesh] embeds [utils/utils_mesh.py]
      ([urdf_to_mesh], [translate_rotate_mesh]);
    - [Train] embeds [model/train.py] ([Trainer.generate_xy],
      [Trainer.train], [Trainer.validate], [Trainer.__call__]);
    - [Infer] embeds [scripts/test_infershape_adam_lbfgs.py]
      ([initialise_latent_code], [get_data], [main]).

    Python exceptions are values of [exception]; a computation that may raise
    returns a [result].  Calls into torch, numpy's random generator, trimesh
    and the SDF sampler are parameters of the sections that use them. *)

From Stdlib Require Import ZArith QArith Lia.
From Stdlib Require SpecFloat.
From stdpp Require Import base tactics option list strings gmap sorting pretty.

(** ** Exceptions and results *)

Inductive exception : Type :=
  | AttributeError (name : string)
  | UnboundLocalError (name : string)
  | KeyError (key : string)
  | IndexError
  | ValueError
  | TypeError
  | RuntimeError
  | ZeroDivisionError.

Inductive result (A : Type) : Type :=
  | Ok (a : A)
  | Raise (e : exception).
Arguments Ok {A} a.
Arguments Raise {A} e.

Definition bind {A B} (r : result A) (f : A → result B) : result B :=
  match r with
  | Ok a => f a
  | Raise e => Raise e
  end.

Notation "'let*' x ':=' r 'in' k" := (bind r (λ x, k))
  (at level 10, x pattern, r at level 100, k at level 200).

Definition is_ok {A} (r : result A) : bool :=
  match r with Ok _ => true | Raise _ => false end.

(** The value of a result under a pure function. *)
Definition result_map {A B} (f : A → B) (r : result A) : result B :=
  let* a := r in Ok (f a).

Lemma bind_Ok {A B} (f : A → result B) (r : result A) (b : B) :
  bind r f = Ok b → ∃ a, r = Ok a ∧ f a = Ok b.
Proof. destruct r as [a|e]; simpl; [eauto | discriminate]. Qed.

Lemma bind_Ok_l {A B} (f : A → result B) (a : A) : bind (Ok a) f = f a.
Proof. reflexivity. Qed.

(** Monadic iteration over a Python [for] loop. *)
Fixpoint mapM {A B} (f : A → result B) (l : list A) : result (list B) :=
  match l with
  | [] => Ok []
  | a :: l' => let* b := f a in let* bs := mapM f l' in Ok (b :: bs)
  end.

Fixpoint foldM {A S} (f : S → A → result S) (s : S) (l : list A) : result S :=
  match l with
  | [] => Ok s
  | a :: l' => let* s' := f s a in foldM f s' l'
  end.

(** [t[i]] for a Python integer [i]: negative indices count from the end. *)
Definition py_index {A} (t : list A) (i : Z) : result A :=
  let n := Z.of_nat (length t) in
  let j := if (i <? 0)%Z then (n + i)%Z else i in
  if ((0 <=? j) && (j <? n))%Z
  then match t !! Z.to_nat j with Some a => Ok a | None => Raise IndexError end
  else Raise IndexError.

Lemma foldM_app {A S} (f : S → A → result S) (s : S) (l1 l2 : list A) :
  foldM f s (l1 ++ l2) = let* s' := foldM f s l1 in foldM f s' l2.
Proof.
  revert s. induction l1 as [|a l1 IH]; intros s; [reflexivity|].
  simpl. destruct (f s a) as [s'|e]; [apply IH | reflexivity].
Qed.

Lemma foldM_invariant {A S} (P : S → Prop) (f : S → A → result S) (l : list A) :
  (∀ s a s', P s → f s a = Ok s' → P s') →
  ∀ s s', P s → foldM f s l = Ok s' → P s'.
Proof.
  intros Hstep. induction l as [|a l IH]; intros s s' Hs Hrun; simpl in Hrun.
  - now injection Hrun as <-.
  - apply bind_Ok in Hrun as (s1 & Hf & Hrest). eauto.
Qed.

(** ** utils/utils_mesh.py *)
Module UtilsMesh.

Local Open Scope Z_scope.

(** *** Integers carried by binary floating point

    [urdf_to_mesh] computes the face offsets with [dtype=np.float32], adds
    them to the int64 face arrays (numpy promotes int64 with float32 to
    float64) and casts the stacked faces to float32.  On integers these
    conversions are the rounding to [prec] significant bits, ties to even;
    the exponent range is not modelled (it starts far above any int64). *)

Definition round_to_prec (prec z : Z) : Z :=
  let a := Z.abs z in
  let e := Z.log2 a + 1 - prec in
  if e <=? 0 then z
  else
    let q := Z.shiftr a e in
    let r := Z.land a (Z.ones e) in
    let half := Z.shiftl 1 (e - 1) in
    let q' := if r <? half then q
              else if half <? r then q + 1
              else if Z.even q then q else q + 1 in
    Z.sgn z * Z.shiftl q' e.

Definition f32 : Z → Z := round_to_prec 24.
Definition f64 : Z → Z := round_to_prec 53.

(** A triangle: one row of an (n, 3) index array. *)
Definition face : Type := Z * Z * Z.

Definition face_map (f : Z → Z) (t : face) : face :=
  let '(a, b, c) := t in (f a, f b, f c).

Definition face_all (P : Z → Prop) (t : face) : Prop :=
  let '(a, b, c) := t in P a ∧ P b ∧ P c.

(** [np.cumsum(xs, dtype=np.float32)]: the elements are cast to float32 and
    accumulated in float32. *)
Fixpoint cumsum_f32_from (acc : Z) (xs : list Z) : list Z :=
  match xs with
  | [] => []
  | x :: xs' => let acc' := f32 (acc + f32 x) in acc' :: cumsum_f32_from acc' xs'
  end.

Definition cumsum_f32 (xs : list Z) : list Z :=
  match xs with
  | [] => []
  | x :: xs' => f32 x :: cumsum_f32_from (f32 x) xs'
  end.

(** [np.insert(faces_offset, 0, 0)[:-1]] *)
Definition shift_in_zero (offs : list Z) : list Z := removelast (0 :: offs).

(** Lines 31-32: the offsets of the sub-meshes from their vertex counts. *)
Definition faces_offset (counts : list Z) : list Z :=
  shift_in_zero (cumsum_f32 counts).

(** [face + offset] for an int64 array and a float32 scalar, in float64. *)
Definition add_offset (offset : Z) (t : face) : face :=
  face_map (λ i, f64 (f64 i + offset)) t.

(** [np.vstack]: raises on an empty sequence of arrays. *)
Definition vstack {A} (arrays : list (list A)) : result (list A) :=
  match arrays with
  | [] => Raise ValueError
  | _ => Ok (concat arrays)
  end.

Section Urdf.
(** A vertex row and its cast to float32 ([astype(np.float32)]). *)
Context {point : Type} (point_f32 : point → point).

Record mesh : Type := Mesh { vertices : list point; faces : list face }.

Definition nrows (m : mesh) : Z := Z.of_nat (length (vertices m)).

(** [urdf_to_mesh], lines 20-34: from the list of loaded sub-meshes (in glob
    order) to the vertex and face arrays handed to [trimesh.Trimesh].  The
    constructor of line 36, which merges equal vertices and re-indexes the
    faces, is a parameter of the callers ([get_mesh_z], [load_object]). *)
Definition urdf_to_mesh (mesh_list : list mesh) : result mesh :=
  let verts_list := vertices <$> mesh_list in
  let faces_list := faces <$> mesh_list in
  let offsets := faces_offset ((λ v, Z.of_nat (length v)) <$> verts_list) in
  let* verts := vstack verts_list in
  let* fcs := vstack (zip_with (λ fc offset, add_offset offset <$> fc) faces_list offsets) in
  Ok (Mesh (point_f32 <$> verts) (face_map f32 <$> fcs)).

(** What the specification asks for: the faces of each sub-mesh shifted by
    the exact number of vertices that precede it. *)
Fixpoint merge_faces_from (offset : Z) (mesh_list : list mesh) : list face :=
  match mesh_list with
  | [] => []
  | m :: ms =>
      (face_map (λ i, i + offset) <$> faces m) ++ merge_faces_from (offset + nrows m) ms
  end.

Definition total_rows (mesh_list : list mesh) : Z :=
  foldr (λ m acc, nrows m + acc) 0 mesh_list.

Definition valid_faces (m : mesh) : Prop :=
  Forall (face_all (λ i, 0 <= i < nrows m)) (faces m).
End Urdf.

Arguments mesh : clear implicits.
Arguments Mesh {point} _ _.

(** *** Exactness of the float arithmetic on small integers *)

Lemma round_to_prec_small prec z :
  1 <= prec → Z.abs z < 2 ^ prec → round_to_prec prec z = z.
Proof.
  intros Hp Hz. unfold round_to_prec.
  assert (Z.log2 (Z.abs z) < prec) as Hlog.
  { destruct (decide (Z.abs z = 0)) as [->|Hne]; [simpl; lia|].
    apply Z.log2_lt_pow2; lia. }
  destruct (Z.leb_spec (Z.log2 (Z.abs z) + 1 - prec) 0); [reflexivity | lia].
Qed.

Lemma f32_exact z : 0 <= z <= 16777216 → f32 z = z.
Proof.
  intros Hz. destruct (decide (z = 16777216)) as [->|Hne]; [reflexivity|].
  apply round_to_prec_small; [lia|].
  rewrite Z.abs_eq by lia. change (2 ^ 24) with 16777216. lia.
Qed.

Lemma f64_exact z : 0 <= z <= 16777216 → f64 z = z.
Proof.
  intros Hz. apply round_to_prec_small; [lia|].
  rewrite Z.abs_eq by lia. change (2 ^ 53) with 9007199254740992. lia.
Qed.

(** The exact running sums, and the offsets they give. *)
Fixpoint cumsum_from (acc : Z) (xs : list Z) : list Z :=
  match xs with
  | [] => []
  | x :: xs' => (acc + x) :: cumsum_from (acc + x) xs'
  end.

Fixpoint offsets_from (acc : Z) (xs : list Z) : list Z :=
  match xs with
  | [] => []
  | x :: xs' => acc :: offsets_from (acc + x) xs'
  end.

Definition sumZ (xs : list Z) : Z := foldr Z.add 0 xs.

Lemma cumsum_f32_from_exact acc xs :
  0 <= acc → Forall (λ x, 0 <= x) xs → acc + sumZ xs <= 16777216 →
  cumsum_f32_from acc xs = cumsum_from acc xs.
Proof.
  revert acc. induction xs as [|x xs IH]; intros acc Hacc Hxs Hsum; [reflexivity|].
  inversion Hxs as [|? ? Hx Hxs']; subst. simpl in *.
  assert (0 <= sumZ xs) as Hnn.
  { clear -Hxs'. induction Hxs'; simpl; lia. }
  rewrite (f32_exact x) by lia. rewrite (f32_exact (acc + x)) by lia.
  f_equal. apply IH; [lia | assumption | lia].
Qed.

Lemma removelast_cumsum_from acc xs :
  removelast (acc :: cumsum_from acc xs) = offsets_from acc xs.
Proof.
  revert acc. induction xs as [|x xs IH]; intros acc; [reflexivity|].
  change (removelast (acc :: cumsum_from acc (x :: xs)))
    with (acc :: removelast ((acc + x) :: cumsum_from (acc + x) xs)).
  rewrite IH. reflexivity.
Qed.

Lemma faces_offset_exact xs :
  Forall (λ x, 0 <= x) xs → sumZ xs <= 16777216 →
  faces_offset xs = offsets_from 0 xs.
Proof.
  intros Hxs Hsum. unfold faces_offset, shift_in_zero.
  rewrite <- removelast_cumsum_from. f_equal. f_equal.
  destruct xs as [|x xs]; [reflexivity|].
  inversion Hxs as [|? ? Hx Hxs']; subst. simpl in *.
  assert (0 <= sumZ xs) as Hnn.
  { clear -Hxs'. induction Hxs'; simpl; lia. }
  rewrite (f32_exact x) by lia. f_equal.
  apply cumsum_f32_from_exact; [lia | assumption | lia].
Qed.

Section UrdfFacts.
Context {point : Type} (point_f32 : point → point).
Implicit Types (m : mesh point) (ml : list (mesh point)).

Lemma total_rows_nonneg ml : 0 <= total_rows ml.
Proof. induction ml as [|m ml IH]; simpl; unfold nrows in *; lia. Qed.

Lemma sumZ_nrows ml : sumZ (nrows <$> ml) = total_rows ml.
Proof.
  induction ml as [|m ml IH]; [reflexivity|].
  change (nrows m + sumZ (nrows <$> ml) = nrows m + total_rows ml). now rewrite IH.
Qed.

Lemma length_concat_vertices ml :
  Z.of_nat (length (concat (vertices <$> ml))) = total_rows ml.
Proof.
  induction ml as [|m ml IH]; [reflexivity|].
  change (Z.of_nat (length (vertices m ++ concat (vertices <$> ml)))
          = nrows m + total_rows ml).
  rewrite length_app, Nat2Z.inj_add, IH. reflexivity.
Qed.

(** Adding an offset and casting to float32 is exact below 2^24. *)
Lemma shift_face_exact offset bound (t : face) :
  0 <= offset → offset + bound <= 16777216 →
  face_all (λ i, 0 <= i < bound) t →
  face_map f32 (add_offset offset t) = face_map (λ i, i + offset) t.
Proof.
  intros Hoff Hb. destruct t as [[a b] c]. simpl. intros (Ha & Hb' & Hc).
  rewrite !(f64_exact a), !(f64_exact b), !(f64_exact c) by lia.
  rewrite !f64_exact by lia. rewrite !f32_exact by lia. reflexivity.
Qed.

Lemma zip_faces_exact acc ml :
  0 <= acc → Forall valid_faces ml → acc + total_rows ml <= 16777216 →
  face_map f32 <$> concat (zip_with (λ fc offset, add_offset offset <$> fc)
                             (faces <$> ml) (offsets_from acc (nrows <$> ml)))
  = merge_faces_from acc ml.
Proof.
  revert acc. induction ml as [|m ml IH]; intros acc Hacc Hval Hsum; [reflexivity|].
  inversion Hval as [|? ? Hm Hml]; subst. simpl in *.
  pose proof (total_rows_nonneg ml) as Hnn.
  assert (0 <= nrows m) as Hrows by (unfold nrows; lia).
  rewrite fmap_app. f_equal.
  - rewrite <- list_fmap_compose. apply Forall_fmap_ext_1.
    eapply Forall_impl; [exact Hm|]. intros t Ht. simpl.
    apply shift_face_exact with (bound := nrows m); [lia | lia | exact Ht].
  - apply IH; [lia | assumption | lia].
Qed.

Lemma merge_faces_valid acc ml :
  0 <= acc → Forall valid_faces ml →
  Forall (face_all (λ i, acc <= i < acc + total_rows ml)) (merge_faces_from acc ml).
Proof.
  revert acc. induction ml as [|m ml IH]; intros acc Hacc Hval; [constructor|].
  inversion Hval as [|? ? Hm Hml]; subst. simpl.
  pose proof (total_rows_nonneg ml) as Hnn.
  assert (0 <= nrows m) as Hrows by (unfold nrows; lia).
  apply Forall_app. split.
  - apply Forall_fmap. eapply Forall_impl; [exact Hm|].
    intros [[a b] c] (Ha & Hb & Hc). simpl. lia.
  - eapply Forall_impl; [apply IH; [lia | assumption]|].
    intros [[a b] c] (Ha & Hb & Hc). simpl. lia.
Qed.

(** X2. Up to 2^24 vertices in total, the arrays that [urdf_to_mesh] hands to
    [trimesh.Trimesh] are the stacked vertices and the faces of each sub-mesh
    shifted by the number of vertices before it; every index of the face
    array is a row of the vertex array.  What the constructor makes of the
    arrays is not part of the statement. *)
Lemma urdf_to_mesh_exact ml :
  ml ≠ [] → Forall valid_faces ml → total_rows ml <= 16777216 →
  urdf_to_mesh point_f32 ml
    = Ok (Mesh (point_f32 <$> concat (vertices <$> ml)) (merge_faces_from 0 ml))
  ∧ Forall (face_all (λ i, 0 <= i < Z.of_nat (length (concat (vertices <$> ml)))))
      (merge_faces_from 0 ml).
Proof.
  intros Hne Hval Hsum. split.
  - unfold urdf_to_mesh.
    rewrite <- list_fmap_compose.
    change ((λ v : list point, Z.of_nat (length v)) ∘ vertices) with (@nrows point).
    rewrite faces_offset_exact.
    + destruct ml as [|m ml]; [congruence|].
      change (vstack (vertices <$> m :: ml)) with (Ok (concat (vertices <$> m :: ml))).
      rewrite bind_Ok_l.
      change (vstack (zip_with ?f (faces <$> m :: ml) ?o)) with
        (Ok (concat (zip_with f (faces <$> m :: ml) o))).
      rewrite bind_Ok_l. f_equal. f_equal.
      apply zip_faces_exact; [lia | assumption | lia].
    + apply Forall_fmap, Forall_forall. intros m _. unfold nrows. simpl. lia.
    + rewrite sumZ_nrows. assumption.
  - rewrite length_concat_vertices.
    eapply Forall_impl; [apply (merge_faces_valid 0); [lia | assumption]|].
    intros [[a b] c] (Ha & Hb & Hc). simpl. lia.
Qed.

(** The faces of a merge depend on the vertex arrays through their lengths
    only. *)
Lemma urdf_to_mesh_faces ml :
  ml ≠ [] →
  result_map faces (urdf_to_mesh point_f32 ml)
  = Ok (face_map f32 <$> concat (zip_with (λ fc offset, add_offset offset <$> fc)
                                   (faces <$> ml) (faces_offset (nrows <$> ml)))).
Proof.
  intros Hne. unfold urdf_to_mesh. rewrite <- list_fmap_compose.
  change ((λ v : list point, Z.of_nat (length v)) ∘ vertices) with (@nrows point).
  destruct ml as [|m ml]; [congruence|]. reflexivity.
Qed.

End UrdfFacts.

(** *** Test property 4 of the specification: sub-meshes of 4 and 6 vertices *)

Definition quad : mesh nat := Mesh [0; 1; 2; 3]%nat [(0, 1, 2); (1, 2, 3)].
Definition hexa : mesh nat := Mesh [10; 11; 12; 13; 14; 15]%nat [(0, 1, 2); (3, 4, 5)].

Example urdf_to_mesh_4_6 :
  urdf_to_mesh id [quad; hexa]
  = Ok (Mesh [0; 1; 2; 3; 10; 11; 12; 13; 14; 15]%nat
             [(0, 1, 2); (1, 2, 3); (4, 5, 6); (7, 8, 9)]).
Proof. vm_compute. reflexivity. Qed.

(** *** Offsets past 2^24 vertices

    A first sub-mesh of 16777217 vertices: float32 has no such number, the
    offset of the second sub-mesh is rounded to 16777216. *)

Example faces_offset_rounds : faces_offset [16777217; 3] = [0; 16777216].
Proof. vm_compute. reflexivity. Qed.

Lemma urdf_to_mesh_rounds (vs : list unit) :
  Z.of_nat (length vs) = 16777217 →
  result_map faces (urdf_to_mesh id [Mesh vs []; Mesh [(); (); ()] [(0, 1, 2)]])
    = Ok [(16777216, 16777216, 16777218)]
  ∧ merge_faces_from 0 [Mesh vs []; Mesh [(); (); ()] [(0, 1, 2)]]
    = [(16777217, 16777218, 16777219)].
Proof.
  intros Hlen. split.
  - rewrite urdf_to_mesh_faces by discriminate.
    change (nrows <$> [Mesh vs []; Mesh [(); (); ()] [(0, 1, 2)]])
      with [Z.of_nat (length vs); 3].
    rewrite Hlen. vm_compute. reflexivity.
  - change (merge_faces_from 0 [Mesh vs []; Mesh [(); (); ()] [(0, 1, 2)]])
      with [(0 + (0 + Z.of_nat (length vs)), 1 + (0 + Z.of_nat (length vs)),
             2 + (0 + Z.of_nat (length vs)))].
    rewrite Hlen. reflexivity.
Qed.

(** C6. [urdf_to_mesh] offsets the face indices of the j-th sub-mesh by the
    cumulative vertex count of the sub-meshes before it.  The code computes
    the offsets in float32: after a sub-mesh of 16777217 vertices the face
    (0, 1, 2) of the next sub-mesh becomes (16777216, 16777216, 16777218),
    where the cumulative vertex count gives (16777217, 16777218, 16777219). *)
Theorem urdf_to_mesh_float32_offset :
  result_map faces
    (urdf_to_mesh id [Mesh (replicate (Z.to_nat 16777217) ()) [];
                      Mesh [(); (); ()] [(0, 1, 2)]])
    = Ok [(16777216, 16777216, 16777218)]
  ∧ merge_faces_from 0 [Mesh (replicate (Z.to_nat 16777217) ()) [];
                        Mesh [(); (); ()] [(0, 1, 2)]]
    = [(16777217, 16777218, 16777219)].
Proof.
  apply urdf_to_mesh_rounds. rewrite length_replicate. apply Z2Nat.id. lia.
Qed.

(** *** [translate_rotate_mesh]

    The arithmetic of the arrays is a parameter: [R] with its sum, difference
    and product.  A dot product is summed from left to right. *)

Section Translate.
Context {R : Type} (zero one : R) (add sub mul : R → R → R).

Definition vec3 : Type := R * R * R.
Definition mat3 : Type := vec3 * vec3 * vec3.
(** A (3, n) array, by rows. *)
Definition rows3 : Type := list R * list R * list R.

Definition dot (u v : vec3) : R :=
  let '(u0, u1, u2) := u in
  let '(v0, v1, v2) := v in
  add (add (mul u0 v0) (mul u1 v1)) (mul u2 v2).

Definition vadd (u v : vec3) : vec3 :=
  let '(u0, u1, u2) := u in
  let '(v0, v1, v2) := v in
  (add u0 v0, add u1 v1, add u2 v2).

Definition vsub (u v : vec3) : vec3 :=
  let '(u0, u1, u2) := u in
  let '(v0, v1, v2) := v in
  (sub u0 v0, sub u1 v1, sub u2 v2).

(** [x.transpose(1, 0)] of an (n, 3) array, and of a (3, n) array. *)
Fixpoint transpose_n3 (pts : list vec3) : rows3 :=
  match pts with
  | [] => ([], [], [])
  | (x, y, z) :: pts' =>
      let '(xs, ys, zs) := transpose_n3 pts' in (x :: xs, y :: ys, z :: zs)
  end.

Fixpoint transpose_3n_rows (xs ys zs : list R) : list vec3 :=
  match xs, ys, zs with
  | x :: xs', y :: ys', z :: zs' => (x, y, z) :: transpose_3n_rows xs' ys' zs'
  | _, _, _ => []
  end.

Definition transpose_3n (X : rows3) : list vec3 :=
  let '(xs, ys, zs) := X in transpose_3n_rows xs ys zs.

(** One row of the (3, 3) @ (3, n) product. *)
Fixpoint row_times (r : vec3) (xs ys zs : list R) : list R :=
  match xs, ys, zs with
  | x :: xs', y :: ys', z :: zs' => dot r (x, y, z) :: row_times r xs' ys' zs'
  | _, _, _ => []
  end.

Definition matmul (M : mat3) (X : rows3) : rows3 :=
  let '(r0, r1, r2) := M in
  let '(xs, ys, zs) := X in
  (row_times r0 xs ys zs, row_times r1 xs ys zs, row_times r2 xs ys zs).

(** Broadcasting of the leading (batch) axis of two arrays. *)
Definition broadcast {A B} (xs : list A) (ys : list B) : result (list (A * B)) :=
  if decide (length xs = length ys) then Ok (zip xs ys)
  else match xs, ys with
       | [x], _ => Ok ((λ y, (x, y)) <$> ys)
       | _, [y] => Ok ((λ x, (x, y)) <$> xs)
       | _, _ => Raise ValueError
       end.

(** The batched steps of the function: [rot @ x], [pos[:, np.newaxis, :] + b]
    and [c - obj_initial_pos]. *)
Definition rotate_batch (Mp : mat3 * rows3) : rows3 := matmul Mp.1 Mp.2.
Definition translate_batch (tb : vec3 * list vec3) : list vec3 := vadd tb.1 <$> tb.2.
Definition recentre (init : vec3) (pc : list vec3) : list vec3 :=
  (λ v, vsub v init) <$> pc.

Definition translate_rotate_mesh (pos_wrld_list : list vec3) (rot_M_wrld_list : list mat3)
    (pointclouds_list : list (list vec3)) (obj_initial_pos : vec3)
    : result (list (list vec3)) :=
  let* rot_pc := broadcast rot_M_wrld_list (transpose_n3 <$> pointclouds_list) in
  let a := rotate_batch <$> rot_pc in
  let b := transpose_3n <$> a in
  let* pos_b := broadcast pos_wrld_list b in
  let c := translate_batch <$> pos_b in
  let pointcloud_wrld := recentre obj_initial_pos <$> c in
  Ok pointcloud_wrld.

(** The image of one work-frame point, in the order of the code: the sensor
    position plus the rotated point, minus the initial position of the
    object. *)
Definition mat_vec (M : mat3) (p : vec3) : vec3 :=
  let '(r0, r1, r2) := M in (dot r0 p, dot r1 p, dot r2 p).


Definition identity3 : mat3 :=
  ((one, zero, zero), (zero, one, zero), (zero, zero, one)).
Definition zero3 : vec3 := (zero, zero, zero).



(** Rotating a transposed cloud and transposing back rotates each point. *)
Lemma transpose_matmul (M : mat3) (pc : list vec3) :
  transpose_3n (matmul M (transpose_n3 pc)) = mat_vec M <$> pc.
Proof.
  destruct M as [[r0 r1] r2]. induction pc as [|[[x y] z] pc IH]; [reflexivity|].
  simpl in *. destruct (transpose_n3 pc) as [[xs ys] zs]. simpl in *.
  now rewrite IH.
Qed.

Lemma broadcast_same_length {A B} (xs : list A) (ys : list B) :
  length xs = length ys → broadcast xs ys = Ok (zip xs ys).
Proof. intros H. unfold broadcast. now rewrite decide_True. Qed.





End Translate.

(** *** binary64

    The Standard Library's specification of IEEE 754 at precision 53. *)
Definition b64_add := SpecFloat.SFadd 53 1024.
Definition b64_sub := SpecFloat.SFsub 53 1024.
Definition b64_mul := SpecFloat.SFmul 53 1024.
(** The float [m · 2^e] of an integer [m]. *)
Definition b64 (m e : Z) : SpecFloat.spec_float :=
  SpecFloat.binary_normalize 53 1024 m e false.







(** A negative zero comes back as the positive zero: the same number, another
    float. *)
Example translate_rotate_mesh_negative_zero :
  translate_rotate_mesh b64_add b64_sub b64_mul
    [zero3 (b64 0 0)] [identity3 (b64 0 0) (b64 1 0)]
    [[(SpecFloat.S754_zero true, b64 1 0, b64 1 0)]] (zero3 (b64 0 0))
  = Ok [[(SpecFloat.S754_zero false, b64 1 0, b64 1 0)]].
Proof. vm_compute. reflexivity. Qed.

(** *** Further facts about [urdf_to_mesh] *)

Lemma length_removelast_cons {A} (a : A) (l : list A) :
  length (removelast (a :: l)) = length l.
Proof.
  revert a. induction l as [|b l IH]; intros a; [reflexivity|].
  change (removelast (a :: b :: l)) with (a :: removelast (b :: l)).
  cbn [length]. now rewrite IH.
Qed.

Lemma length_cumsum_f32_from acc xs : length (cumsum_f32_from acc xs) = length xs.
Proof.
  revert acc. induction xs as [|x xs IH]; intros acc; [reflexivity|].
  simpl. now rewrite IH.
Qed.

Lemma length_faces_offset xs : length (faces_offset xs) = length xs.
Proof.
  unfold faces_offset, shift_in_zero. rewrite length_removelast_cons.
  destruct xs as [|x xs]; [reflexivity|]. simpl. now rewrite length_cumsum_f32_from.
Qed.

Lemma length_concat_sum {A} (ls : list (list A)) :
  length (concat ls) = sum_list (length <$> ls).
Proof.
  induction ls as [|l ls IH]; [reflexivity|].
  rewrite concat_cons, length_app, IH. reflexivity.
Qed.

Lemma length_concat_zip_faces (faces_list : list (list face)) (offsets : list Z) :
  length faces_list = length offsets →
  length (concat (zip_with (λ fc offset, add_offset offset <$> fc) faces_list offsets))
  = sum_list (length <$> faces_list).
Proof.
  revert offsets. induction faces_list as [|fc fl IH]; intros [|o os] Hlen;
    try discriminate; [reflexivity|].
  simpl in *. rewrite length_app, length_fmap, IH by lia. reflexivity.
Qed.

(** X1. [urdf_to_mesh] fails exactly when the directory has no sub-mesh (numpy
    cannot stack an empty sequence); otherwise the vertex array that it hands
    to [trimesh.Trimesh] has one row for each vertex of the sub-meshes and
    the face array one row for each of their faces.  What the constructor
    makes of the arrays is not part of the statement. *)
Theorem urdf_to_mesh_sizes {point : Type} (point_f32 : point → point)
    (ml : list (mesh point)) :
  match ml with
  | [] => urdf_to_mesh point_f32 ml = Raise ValueError
  | _ => ∃ m, urdf_to_mesh point_f32 ml = Ok m
           ∧ length (vertices m) = sum_list ((λ s, length (vertices s)) <$> ml)
           ∧ length (faces m) = sum_list ((λ s, length (faces s)) <$> ml)
  end.
Proof.
  destruct ml as [|m0 ml0]; [reflexivity|].
  set (ml := m0 :: ml0).
  exists (Mesh (point_f32 <$> concat (vertices <$> ml))
               (face_map f32 <$> concat (zip_with (λ fc offset, add_offset offset <$> fc)
                  (faces <$> ml)
                  (faces_offset ((λ v, Z.of_nat (length v)) <$> (vertices <$> ml)))))).
  split; [reflexivity|]. cbn [vertices faces]. split.
  - rewrite length_fmap, length_concat_sum, <- list_fmap_compose. reflexivity.
  - rewrite length_fmap, length_concat_zip_faces.
    + rewrite <- list_fmap_compose. reflexivity.
    + now rewrite length_faces_offset, !length_fmap.
Qed.

(** Sub-meshes of 4 and 6 vertices, as in the specification: the merge has 10
    vertices and the faces of the second sub-mesh shifted by 4. *)
Lemma urdf_to_mesh_exact_witness :
  urdf_to_mesh id [quad; hexa]
  = Ok (Mesh (id <$> concat (vertices <$> [quad; hexa])) (merge_faces_from 0 [quad; hexa]))
  ∧ Forall (face_all (λ i, 0 <= i < Z.of_nat (length (concat (vertices <$> [quad; hexa])))))
      (merge_faces_from 0 [quad; hexa]).
Proof.
  apply (urdf_to_mesh_exact id [quad; hexa]).
  - discriminate.
  - unfold quad, hexa, valid_faces, nrows. repeat constructor; simpl; lia.
  - vm_compute. discriminate.
Defined.

(** *** Further facts about [translate_rotate_mesh] *)

Lemma broadcast_mismatch {A B} (xs : list A) (ys : list B) :
  length xs ≠ length ys → length xs ≠ 1%nat → length ys ≠ 1%nat →
  broadcast xs ys = Raise ValueError.
Proof.
  intros Hne Hx Hy. unfold broadcast. rewrite decide_False by assumption.
  destruct xs as [|x [|x' xs]], ys as [|y [|y' ys]]; simpl in *; congruence.
Qed.

Lemma broadcast_singleton_l {A B} (x : A) (ys : list B) :
  broadcast [x] ys = Ok ((λ y, (x, y)) <$> ys).
Proof.
  unfold broadcast. destruct (decide (length [x] = length ys)) as [Hlen|Hlen]; [|reflexivity].
  destruct ys as [|y [|y' ys]]; try discriminate. reflexivity.
Qed.

Section TranslateShapes.
Context {R : Type} (add sub mul : R → R → R).

(** X3. [translate_rotate_mesh] raises when the number of rotations, or of
    sensor positions, differs from the number of point clouds and neither is
    1: numpy cannot broadcast the batches. *)
Theorem translate_rotate_mesh_mismatch (pos : list (@vec3 R)) (rot : list (@mat3 R))
    (pcs : list (list (@vec3 R))) (init : @vec3 R) :
  length pcs ≠ 1%nat →
  (length rot ≠ length pcs ∧ length rot ≠ 1%nat)
  ∨ (length rot = length pcs ∧ length pos ≠ length pcs ∧ length pos ≠ 1%nat) →
  translate_rotate_mesh add sub mul pos rot pcs init = Raise ValueError.
Proof.
  intros Hpcs [[Hrot Hrot1]|(Hrot & Hpos & Hpos1)]; unfold translate_rotate_mesh.
  - rewrite broadcast_mismatch; [reflexivity | | assumption |];
      now rewrite length_fmap.
  - rewrite broadcast_same_length by now rewrite length_fmap.
    rewrite bind_Ok_l.
    rewrite broadcast_mismatch; [reflexivity | | assumption |];
      rewrite !length_fmap, length_zip_with_l_eq; rewrite ?length_fmap; congruence.
Qed.

(** X4. A single rotation and a single sensor position are applied to every
    point cloud of the batch. *)
Theorem translate_rotate_mesh_single_pose (t : @vec3 R) (M : @mat3 R)
    (pcs : list (list (@vec3 R))) (init : @vec3 R) :
  translate_rotate_mesh add sub mul [t] [M] pcs init
  = Ok ((λ pc : list (@vec3 R),
           (λ p, vsub sub (vadd add t (mat_vec add mul M p)) init) <$> pc) <$> pcs).
Proof.
  unfold translate_rotate_mesh.
  rewrite broadcast_singleton_l, bind_Ok_l, broadcast_singleton_l, bind_Ok_l.
  f_equal. rewrite <- !list_fmap_compose. apply list_fmap_ext. intros _ pc _. simpl.
  unfold recentre, translate_batch, rotate_batch. simpl.
  rewrite transpose_matmul, <- !list_fmap_compose. reflexivity.
Qed.

End TranslateShapes.

(** Three clouds with two rotations; three clouds with one pose. *)
Lemma translate_rotate_mesh_mismatch_witness :
  translate_rotate_mesh Z.add Z.sub Z.mul [(0, 0, 0); (0, 0, 0); (0, 0, 0)]
    [identity3 0 1; identity3 0 1] [[(1, 2, 3)]; []; [(4, 5, 6)]] (0, 0, 0)
  = Raise ValueError.
Proof.
  apply translate_rotate_mesh_mismatch; [simpl; lia | left; simpl; lia].
Defined.

(** *** Rotation and scaling of point clouds, [get_mesh_z] *)

Section Clouds.
(** The arithmetic of the arrays, and the matrix that the physics engine
    gives for Euler angles
    ([pb.getMatrixFromQuaternion(pb.getQuaternionFromEuler(rot))]). *)
Context {R E : Type} (add mul : R → R → R) (matrix_from_euler : E → @mat3 R).

(** [np.einsum('ij,kj->ik', M, verts)]: a (3, n) array. *)
Definition einsum_ij_kj_ik (M : @mat3 R) (verts : list (@vec3 R)) : @rows3 R :=
  let '(r0, r1, r2) := M in
  (dot add mul r0 <$> verts, dot add mul r1 <$> verts, dot add mul r2 <$> verts).

Definition rotate_vertices (vertices : list (@vec3 R)) (rot : E) : list (@vec3 R) :=
  let new_verts := vertices in
  let rot_M_obj := matrix_from_euler rot in
  transpose_3n (einsum_ij_kj_ik rot_M_obj new_verts).

Definition rotate_pointcloud (pointcloud : list (@vec3 R)) (rot : E) : list (@vec3 R) :=
  let obj := pointcloud in
  let rot_M_obj := matrix_from_euler rot in
  transpose_3n (einsum_ij_kj_ik rot_M_obj obj).

Definition scale_pointcloud (pointcloud : list (@vec3 R)) (scale : R) : list (@vec3 R) :=
  (λ p : @vec3 R, let '(x, y, z) := p in (mul x scale, mul y scale, mul z scale))
  <$> pointcloud.

(** X5. [rotate_pointcloud] returns, point by point, the product of the
    rotation matrix with the point; [rotate_vertices] is the same function. *)
Theorem rotate_pointcloud_points (pointcloud : list (@vec3 R)) (rot : E) :
  rotate_pointcloud pointcloud rot = mat_vec add mul (matrix_from_euler rot) <$> pointcloud
  ∧ rotate_vertices pointcloud rot = rotate_pointcloud pointcloud rot
  ∧ length (rotate_pointcloud pointcloud rot) = length pointcloud.
Proof.
  assert (rotate_pointcloud pointcloud rot
          = mat_vec add mul (matrix_from_euler rot) <$> pointcloud) as Heq.
  { unfold rotate_pointcloud. destruct (matrix_from_euler rot) as [[r0 r1] r2].
    unfold einsum_ij_kj_ik, transpose_3n.
    induction pointcloud as [|p pc IH]; [reflexivity|]. csimpl. now rewrite IH. }
  split; [exact Heq|]. split; [reflexivity|]. now rewrite Heq, length_fmap.
Qed.

End Clouds.

Section MeshZ.
(** The arithmetic and the order of the floats of the arrays. *)
Context {R E : Type} (add mul sub div : R → R → R) (two : R) (leb : R → R → bool).
Context (matrix_from_euler : E → @mat3 R) (default_rot : E).
Context (point_f32 : @vec3 R → @vec3 R).
(** The mesh object that [trimesh.Trimesh(verts, faces)] builds from the
    arrays: the constructor processes them. *)
Context (trimesh : mesh (@vec3 R) → mesh (@vec3 R)).

(** [np.maximum] and [np.minimum] on two entries: the first on a tie. *)
Definition rmax (x y : R) : R := if leb y x then x else y.
Definition rmin (x y : R) : R := if leb x y then x else y.

(** [np.amax] and [np.amin] of a one-dimensional array: both raise on an
    empty array. *)
Definition np_amax (a : list R) : result R :=
  match a with
  | [] => Raise ValueError
  | x :: a' => Ok (foldl rmax x a')
  end.

Definition np_amin (a : list R) : result R :=
  match a with
  | [] => Raise ValueError
  | x :: a' => Ok (foldl rmin x a')
  end.

(** The z values of the scaled and rotated vertices (lines 133-136). *)
Definition z_values_of (merged : mesh (@vec3 R)) (scale : R) : list R :=
  let verts := vertices (trimesh merged) in
  let pointcloud_s := scale_pointcloud mul verts scale in
  let pointcloud_s_r :=
    rotate_pointcloud add mul matrix_from_euler pointcloud_s default_rot in
  (λ p : @vec3 R, p.2) <$> pointcloud_s_r.

(** [get_mesh_z], from the sub-meshes of the object's directory. *)
Definition get_mesh_z (sub_meshes : list (mesh (@vec3 R))) (scale : R) : result R :=
  let* merged := urdf_to_mesh point_f32 sub_meshes in
  let z_values := z_values_of merged scale in
  let* hi := np_amax z_values in
  let* lo := np_amin z_values in
  let height := sub hi lo in
  Ok (div height two).

End MeshZ.

Section Extrema.
Context {R : Type} (leb : R → R → bool).
(** The order of floats that are numbers. *)
Hypothesis leb_total : ∀ x y, leb x y = true ∨ leb y x = true.
Hypothesis leb_trans : ∀ x y z, leb x y = true → leb y z = true → leb x z = true.

Lemma rmax_cases (x y : R) :
  leb x (rmax leb x y) = true ∧ leb y (rmax leb x y) = true
  ∧ (rmax leb x y = x ∨ rmax leb x y = y).
Proof.
  unfold rmax. destruct (leb y x) eqn:Hle.
  - split; [destruct (leb_total x x); assumption|]. split; [assumption | now left].
  - split; [destruct (leb_total x y); congruence|].
    split; [destruct (leb_total y y); assumption | now right].
Qed.

Lemma rmin_cases (x y : R) :
  leb (rmin leb x y) x = true ∧ leb (rmin leb x y) y = true
  ∧ (rmin leb x y = x ∨ rmin leb x y = y).
Proof.
  unfold rmin. destruct (leb x y) eqn:Hle.
  - split; [destruct (leb_total x x); assumption|]. split; [assumption | now left].
  - split; [destruct (leb_total x y); congruence|].
    split; [destruct (leb_total y y); assumption | now right].
Qed.

Lemma foldl_rmax (a : list R) (x : R) :
  foldl (rmax leb) x a ∈ x :: a
  ∧ Forall (λ z, leb z (foldl (rmax leb) x a) = true) (x :: a).
Proof.
  revert x. induction a as [|y a IH]; intros x.
  - simpl. split; [apply list_elem_of_here|].
    constructor; [destruct (leb_total x x); assumption | constructor].
  - simpl. destruct (IH (rmax leb x y)) as [Hin Hall].
    inversion Hall as [|? ? Hm Hrest]; subst.
    destruct (rmax_cases x y) as (Hx & Hy & Hor).
    split.
    + apply elem_of_cons in Hin as [Hin|Hin].
      * rewrite Hin. destruct Hor as [->| ->];
          [apply list_elem_of_here | apply list_elem_of_further, list_elem_of_here].
      * now do 2 apply list_elem_of_further.
    + constructor; [eapply leb_trans; eassumption|].
      constructor; [eapply leb_trans; eassumption | assumption].
Qed.

Lemma foldl_rmin (a : list R) (x : R) :
  foldl (rmin leb) x a ∈ x :: a
  ∧ Forall (λ z, leb (foldl (rmin leb) x a) z = true) (x :: a).
Proof.
  revert x. induction a as [|y a IH]; intros x.
  - simpl. split; [apply list_elem_of_here|].
    constructor; [destruct (leb_total x x); assumption | constructor].
  - simpl. destruct (IH (rmin leb x y)) as [Hin Hall].
    inversion Hall as [|? ? Hm Hrest]; subst.
    destruct (rmin_cases x y) as (Hx & Hy & Hor).
    split.
    + apply elem_of_cons in Hin as [Hin|Hin].
      * rewrite Hin. destruct Hor as [->| ->];
          [apply list_elem_of_here | apply list_elem_of_further, list_elem_of_here].
      * now do 2 apply list_elem_of_further.
    + constructor; [eapply leb_trans; eassumption|].
      constructor; [eapply leb_trans; eassumption | assumption].
Qed.

End Extrema.

(** X6. [get_mesh_z] raises when the mesh has no vertex; otherwise it
    returns half the difference between the largest and the smallest z of the
    scaled and rotated vertices: both are z values of the mesh and every z
    lies between them.  Stated for floats that are numbers: a total,
    transitive order. *)
Theorem get_mesh_z_spec {R E : Type} (add mul sub div : R → R → R) (two : R)
    (leb : R → R → bool) (matrix_from_euler : E → @mat3 R) (default_rot : E)
    (point_f32 : @vec3 R → @vec3 R) (trimesh : mesh (@vec3 R) → mesh (@vec3 R))
    (sub_meshes : list (mesh (@vec3 R))) (scale : R) (merged : mesh (@vec3 R)) :
  (∀ x y, leb x y = true ∨ leb y x = true) →
  (∀ x y z, leb x y = true → leb y z = true → leb x z = true) →
  urdf_to_mesh point_f32 sub_meshes = Ok merged →
  match z_values_of add mul matrix_from_euler default_rot trimesh merged scale with
  | [] => get_mesh_z add mul sub div two leb matrix_from_euler default_rot point_f32
                     trimesh sub_meshes scale
          = Raise ValueError
  | z :: zs =>
      ∃ lo hi,
        get_mesh_z add mul sub div two leb matrix_from_euler default_rot point_f32
                   trimesh sub_meshes scale
        = Ok (div (sub hi lo) two)
        ∧ lo ∈ z :: zs ∧ hi ∈ z :: zs
        ∧ Forall (λ v, leb lo v = true ∧ leb v hi = true) (z :: zs)
  end.
Proof.
  intros Htotal Htrans Hmerged. unfold get_mesh_z. rewrite Hmerged, bind_Ok_l.
  destruct (z_values_of add mul matrix_from_euler default_rot trimesh merged scale)
    as [|z zs]; [reflexivity|].
  destruct (foldl_rmax leb Htotal Htrans zs z) as [Hhi_in Hhi].
  destruct (foldl_rmin leb Htotal Htrans zs z) as [Hlo_in Hlo].
  exists (foldl (rmin leb) z zs), (foldl (rmax leb) z zs).
  split; [reflexivity|]. split; [assumption|]. split; [assumption|].
  apply Forall_forall. intros v Hv. split.
  - exact (proj1 (Forall_forall _ _) Hlo v Hv).
  - exact (proj1 (Forall_forall _ _) Hhi v Hv).
Qed.

(** A mesh of three vertices on integers, scaled by 2 and turned a quarter
    about the x axis: z is 2, -2 and 6. *)
Lemma get_mesh_z_spec_witness :
  ∃ lo hi,
    get_mesh_z Z.add Z.mul Z.sub Z.div 2 Z.leb
      (λ _ : unit, ((1, 0, 0), (0, 0, -1), (0, 1, 0))) () id id
      [Mesh [(0, 1, 5); (1, -1, 0); (2, 3, 1)] [(0, 1, 2)]] 2
    = Ok ((hi - lo) / 2)
    ∧ lo ∈ [2; -2; 6] ∧ hi ∈ [2; -2; 6]
    ∧ Forall (λ v, (lo <=? v) = true ∧ (v <=? hi) = true) [2; -2; 6].
Proof.
  pose proof (get_mesh_z_spec Z.add Z.mul Z.sub Z.div 2 Z.leb
                (λ _ : unit, ((1, 0, 0), (0, 0, -1), (0, 1, 0))) () id id
                [Mesh [(0, 1, 5); (1, -1, 0); (2, 3, 1)] [(0, 1, 2)]] 2
                (Mesh [(0, 1, 5); (1, -1, 0); (2, 3, 1)] [(0, 1, 2)])) as H.
  assert (z_values_of Z.add Z.mul (λ _ : unit, ((1, 0, 0), (0, 0, -1), (0, 1, 0))) () id
            (Mesh [(0, 1, 5); (1, -1, 0); (2, 3, 1)] [(0, 1, 2)]) 2
          = [2; -2; 6]) as Hz by (vm_compute; reflexivity).
  rewrite Hz in H.
  destruct H as (lo & hi & Hrun & Hlo & Hhi & Hall).
  - intros x y. rewrite !Z.leb_le. lia.
  - intros x y z. rewrite !Z.leb_le. lia.
  - reflexivity.
  - eauto 6.
Defined.

(** *** [save_touch_charts] *)

Section TouchCharts.
(** The floats of the arrays with their cast to float32, the pixels of the
    tactile images with their division by 255, and the arrays that are
    stored as they come. *)
Context {R P PC RM PW PK IP : Type} (to_f32 : R → R) (over_255 : P → R).

(** An [open3d.geometry.TriangleMesh]. *)
Record triangle_mesh : Type := TriangleMesh {
  tm_vertices : list (@vec3 R);
  tm_triangles : list face
}.

Record touch_charts_data : Type := TouchChartsData {
  tc_verts : list (list R);
  tc_faces : list face;
  tc_tactile_imgs : list (list (list (list R)));
  tc_pointclouds : PC;
  tc_rot_M_wrld : RM;
  tc_pos_wrld : PW;
  tc_pos_wrk : PK;
  tc_initial_pos : IP
}.

(** [a.ravel()] of an (n, 3) array, and the (n, 3) view of a flat array. *)
Fixpoint ravel (a : list (@vec3 R)) : list R :=
  match a with
  | [] => []
  | (x, y, z) :: a' => x :: y :: z :: ravel a'
  end.

Fixpoint unravel (a : list R) : list (@vec3 R) :=
  match a with
  | x :: y :: z :: a' => (x, y, z) :: unravel a'
  | _ => []
  end.

Definition vec3_map (f : R → R) (p : @vec3 R) : @vec3 R :=
  let '(x, y, z) := p in (f x, f y, f z).

(** The body of the loop of lines 104-107: [np.vstack] of the (k, 75) array
    with a flat array needs 75 entries. *)
Definition add_chart (acc : list (list R) * list face) (mesh : triangle_mesh)
    : result (list (list R) * list face) :=
  let '(verts, fcs) := acc in
  let vert := ravel (vec3_map to_f32 <$> tm_vertices mesh) in
  let* verts :=
    if decide (length vert = 75%nat) then Ok (verts ++ [vert]) else Raise ValueError in
  let fcs := fcs ++ (face_map f32 <$> tm_triangles mesh) in
  Ok (verts, fcs).

(** [save_touch_charts]: the dictionary that is saved. *)
Definition save_touch_charts (mesh_list : list triangle_mesh)
    (tactile_imgs : list (list (list P))) (pointcloud_list : PC) (rot_M_wrld_list : RM)
    (pos_wrld_list : PW) (pos_wrk_list : PK) (initial_pos : IP)
    : result touch_charts_data :=
  let* vf := foldM add_chart ([], []) mesh_list in
  let tactile_imgs :=
    (λ img : list (list P), [(λ row : list P, over_255 <$> row) <$> img]) <$> tactile_imgs in
  Ok (TouchChartsData vf.1 vf.2 tactile_imgs pointcloud_list rot_M_wrld_list
                      pos_wrld_list pos_wrk_list initial_pos).

Lemma length_ravel (a : list (@vec3 R)) : length (ravel a) = (3 * length a)%nat.
Proof.
  induction a as [|[[x y] z] a IH]; [reflexivity|]. simpl. rewrite IH. lia.
Qed.

Lemma unravel_ravel (a : list (@vec3 R)) : unravel (ravel a) = a.
Proof. induction a as [|[[x y] z] a IH]; [reflexivity|]. simpl. now rewrite IH. Qed.

Lemma add_chart_fold (mesh_list : list triangle_mesh) (verts : list (list R))
    (fcs : list face) :
  foldM add_chart (verts, fcs) mesh_list
  = if decide (Forall (λ m, length (tm_vertices m) = 25%nat) mesh_list)
    then Ok (verts ++ ((λ m, ravel (vec3_map to_f32 <$> tm_vertices m)) <$> mesh_list),
             fcs ++ concat ((λ m, face_map f32 <$> tm_triangles m) <$> mesh_list))
    else Raise ValueError.
Proof.
  revert verts fcs. induction mesh_list as [|m ml IH]; intros verts fcs.
  - rewrite decide_True by constructor. simpl. now rewrite !app_nil_r.
  - cbn [foldM]. unfold add_chart at 1.
    rewrite length_ravel, length_fmap.
    destruct (decide ((3 * length (tm_vertices m))%nat = 75%nat)) as [H75|H75].
    + rewrite bind_Ok_l, bind_Ok_l, IH.
      destruct (decide (Forall (λ m, length (tm_vertices m) = 25%nat) ml)) as [Hml|Hml].
      * rewrite decide_True by (constructor; [lia | assumption]).
        rewrite !fmap_cons, concat_cons, <- !app_assoc. reflexivity.
      * rewrite decide_False; [reflexivity|]. intros Hall. apply Hml.
        now inversion Hall.
    + rewrite decide_False; [reflexivity|]. intros Hall. inversion Hall; subst. lia.
Qed.

(** X7. [save_touch_charts] succeeds exactly when every touch mesh has 25
    vertices.  The archive then holds one row of 75 floats per mesh, from
    which the vertices are read back, the triangles of all meshes one after
    the other, cast to float32 and not offset, and one single-channel image
    per tactile image; the other arrays are stored as given. *)
Theorem save_touch_charts_spec (mesh_list : list triangle_mesh)
    (tactile_imgs : list (list (list P))) (pointcloud_list : PC) (rot_M_wrld_list : RM)
    (pos_wrld_list : PW) (pos_wrk_list : PK) (initial_pos : IP) :
  save_touch_charts mesh_list tactile_imgs pointcloud_list rot_M_wrld_list
                    pos_wrld_list pos_wrk_list initial_pos
  = (if decide (Forall (λ m, length (tm_vertices m) = 25%nat) mesh_list)
     then Ok (TouchChartsData
                ((λ m, ravel (vec3_map to_f32 <$> tm_vertices m)) <$> mesh_list)
                (concat ((λ m, face_map f32 <$> tm_triangles m) <$> mesh_list))
                ((λ img : list (list P), [(λ row : list P, over_255 <$> row) <$> img])
                 <$> tactile_imgs)
                pointcloud_list rot_M_wrld_list pos_wrld_list pos_wrk_list initial_pos)
     else Raise ValueError)
  ∧ (∀ m, unravel (ravel (vec3_map to_f32 <$> tm_vertices m))
          = vec3_map to_f32 <$> tm_vertices m)
  ∧ (∀ m, length (tm_vertices m) = 25%nat →
          length (ravel (vec3_map to_f32 <$> tm_vertices m)) = 75%nat).
Proof.
  split; [|split].
  - unfold save_touch_charts. rewrite add_chart_fold.
    destruct (decide (Forall (λ m, length (tm_vertices m) = 25%nat) mesh_list));
      reflexivity.
  - intros m. apply unravel_ravel.
  - intros m Hm. rewrite length_ravel, length_fmap. lia.
Qed.

End TouchCharts.

(** Two touch meshes of 25 vertices; a mesh of 24 vertices cannot be stored. *)
Example save_touch_charts_two :
  result_map (λ d, (length (tc_verts d), length <$> tc_verts d, tc_faces d,
                    tc_tactile_imgs d))
    (save_touch_charts (λ x : Z, x) (λ p : Z, p / 255)
       [TriangleMesh (replicate 25 (1, 2, 3)) [(0, 1, 2)];
        TriangleMesh (replicate 25 (4, 5, 6)) [(0, 2, 24); (1, 2, 3)]]
       [[[255; 510]]] () () () () ())
  = Ok (2%nat, [75; 75]%nat, [(0, 1, 2); (0, 2, 24); (1, 2, 3)], [[[[1; 2]]]]).
Proof. vm_compute. reflexivity. Qed.

Example save_touch_charts_24_vertices :
  save_touch_charts (λ x : Z, x) (λ p : Z, p / 255)
    [TriangleMesh (replicate 25 (1, 2, 3)) []; TriangleMesh (replicate 24 (4, 5, 6)) []]
    [] () () () () ()
  = Raise ValueError.
Proof. vm_compute. reflexivity. Qed.

(** *** [load_save_objects] *)

(** [l.remove(x)]: the list without the first [x]; raises when there is none. *)
Fixpoint list_remove (x : string) (l : list string) : result (list string) :=
  match l with
  | [] => Raise ValueError
  | y :: l' =>
      if bool_decide (y = x) then Ok l'
      else let* r := list_remove x l' in Ok (y :: r)
  end.

Section LoadObjects.
Context {R E : Type} (add mul : R → R → R).
Context (matrix_from_euler : E → @mat3 R) (default_rot : E).
Context (point_f32 : @vec3 R → @vec3 R).
(** The sub-meshes loaded from the OBJ files of an object's directory, the
    mesh object that [trimesh.Trimesh] builds, and
    [extract_urdf.normalise_obj], which is not among the sources. *)
Context (sub_meshes : string → list (mesh (@vec3 R))).
Context (trimesh : mesh (@vec3 R) → mesh (@vec3 R)).
Context (normalise_obj : list (@vec3 R) → list (@vec3 R)).

(** The body of the loop of lines 223-231. *)
Definition load_object (objs_dict : gmap string (list (@vec3 R) * list face))
    (obj_index : string) : result (gmap string (list (@vec3 R) * list face)) :=
  let* merged := urdf_to_mesh point_f32 (sub_meshes obj_index) in
  let mesh := trimesh merged in
  let verts := vertices mesh in
  let fcs := faces mesh in
  let verts_norm := normalise_obj verts in
  let new_verts := rotate_vertices add mul matrix_from_euler verts_norm default_rot in
  Ok (<[obj_index := (new_verts, fcs)]> objs_dict).

(** [load_save_objects], from the names of the entries of [obj_dir]. *)
Definition load_save_objects (entries : list string)
    : result (gmap string (list (@vec3 R) * list face)) :=
  let* list_objects := list_remove "__init__.py" entries in
  let* list_objects :=
    if bool_decide ("__pycache__" ∈ list_objects)
    then list_remove "__pycache__" list_objects
    else Ok list_objects in
  foldM load_object ∅ list_objects.

End LoadObjects.

Lemma list_remove_absent (x : string) (l : list string) :
  x ∉ l → list_remove x l = Raise ValueError.
Proof.
  induction l as [|y l IH]; intros Hx; [reflexivity|].
  apply not_elem_of_cons in Hx as [Hne Hx]. simpl.
  rewrite bool_decide_false by congruence. now rewrite IH.
Qed.


Section LoadObjectsFacts.
Context {R E : Type} (add mul : R → R → R).
Context (matrix_from_euler : E → @mat3 R) (default_rot : E).
Context (point_f32 : @vec3 R → @vec3 R).
Context (sub_meshes : string → list (mesh (@vec3 R))).
Context (trimesh : mesh (@vec3 R) → mesh (@vec3 R)).
Context (normalise_obj : list (@vec3 R) → list (@vec3 R)).

Abbreviation load_object :=
  (load_object add mul matrix_from_euler default_rot point_f32 sub_meshes trimesh
               normalise_obj).
Abbreviation load_save_objects :=
  (load_save_objects add mul matrix_from_euler default_rot point_f32 sub_meshes trimesh
                     normalise_obj).


(** X8. [load_save_objects] raises when the directory has no entry
    [__init__.py]. *)
Theorem load_save_objects_no_init (entries : list string) :
  "__init__.py" ∉ entries → load_save_objects entries = Raise ValueError.
Proof.
  intros Hno. unfold UtilsMesh.load_save_objects.
  now rewrite list_remove_absent.
Qed.


End LoadObjectsFacts.

(** A directory with two objects; the same without [__init__.py]. *)
Definition toy_sub_meshes (name : string) : list (mesh (@vec3 Z)) :=
  if bool_decide (name = "empty") then [] else [Mesh [(1, 2, 3); (4, 5, 6)] [(0, 1, 1)]].

Lemma load_save_objects_no_init_witness :
  load_save_objects Z.add Z.mul (λ _ : unit, identity3 0 1) () id toy_sub_meshes id id
                    ["100"; "__pycache__"; "200"]
  = Raise ValueError.
Proof.
  apply load_save_objects_no_init.
  intros Hin. repeat (apply elem_of_cons in Hin as [Hin|Hin]; [discriminate|]).
  inversion Hin.
Defined.


(** An object without an OBJ file. *)
Example load_save_objects_empty_object :
  load_save_objects Z.add Z.mul (λ _ : unit, identity3 0 1) () id toy_sub_meshes id id
                    ["100"; "__init__.py"; "empty"]
  = Raise ValueError.
Proof. vm_compute. reflexivity. Qed.

End UtilsMesh.

(** ** model/train.py *)
Module Train.

(** [torch.unique(t, dim=0)] of a one-dimensional index tensor: its distinct
    values, sorted. *)
Definition torch_unique (t : list Z) : list Z := merge_sort Z.le (remove_dups t).

(** A two-dimensional tensor, by rows. *)
Abbreviation matrix F := (list (list F)).

Section Trainer.
(** The floating-point arithmetic of the tensors, the decoder network with its
    loss and optimiser, the data loaders and the device are parameters. *)
Context {F : Type} (zero : F) (add sub mul div : F → F → F) (of_count : nat → F).
Context {params gparams : Type}.

Definition has_shape (m : matrix F) (r c : nat) : Prop :=
  length m = r ∧ Forall (λ row, length row = c) m.

Record args : Type := Args {
  seed : Z; epochs : Z; lr : F; batch_size : Z; latent_size : Z
}.

(** A batch: [batch[0]] has the rows [class, x, y, z], [batch[1]] the sdf. *)
Record sample_row : Type := SampleRow { latent_class : Z; coords : list F }.
Record batch : Type := Batch { batch_rows : list sample_row; batch_sdf : list F }.

(** [predictions = model(x); loss = SDFLoss_multishape(y, predictions,
    latent_codes_batch); loss.backward()]: from the network, [x], [y], the
    codes of the batch and the latent-code matrix to the loss, the gradient of
    the network and the gradient of the latent-code matrix. *)
Context (backward : params → matrix F → list F → matrix F → matrix F → F * gparams * matrix F).
(** The same forward pass and loss without gradients. *)
Context (forward_loss : params → matrix F → list F → matrix F → F).
(** [optimizer_model.step()] at a learning rate. *)
Context (model_step : F → params → gparams → params).
(** The batches of the shuffled training loader in each epoch, and those of
    the validation loader. *)
Context (train_batches : nat → list batch) (val_batches : list batch).
(** Whether [device] is the CPU. *)
Context (on_cpu : bool).
(** The initial decoder and the random initial value of each latent entry. *)
Context (model0 : params) (init_code : nat → nat → F).

(** An entry of [results['train']['latent_codes']]:
    [latent_codes.detach().cpu().numpy()] shares the memory of the parameter
    on the CPU and is a fresh host copy otherwise. *)
Inductive snapshot : Type :=
  | View
  | Copy (m : matrix F).

Record results : Type := Results {
  train_loss : list F;
  train_latent_codes : list snapshot;
  val_loss : list F
}.

(** What [np.save] writes: the arrays by value. *)
Record results_file : Type := ResultsFile {
  file_train_loss : list F;
  file_latent_codes : list (matrix F);
  file_val_loss : list F
}.

Inductive event : Type :=
  | TrainPass (epoch : nat)
  | ValidationPass (epoch : nat)
  | SaveResults (epoch : nat)
  | SaveWeights (epoch : nat).

Record trainer : Type := Trainer {
  model : params;
  latent_codes : matrix F;
  latent_grad : option (matrix F);
  dict_latent_codes : gmap string Z;
  res : results;
  disk_results : option results_file;
  disk_weights : option params;
  log : list event
}.

Definition with_latent (st : trainer) (m : params) (codes : matrix F) (g : option (matrix F))
    : trainer :=
  Trainer m codes g (dict_latent_codes st) (res st) (disk_results st)
          (disk_weights st) (log st).

Definition with_results (st : trainer) (r : results) : trainer :=
  Trainer (model st) (latent_codes st) (latent_grad st) (dict_latent_codes st) r
          (disk_results st) (disk_weights st) (log st).

Definition with_event (st : trainer) (ev : event) : trainer :=
  Trainer (model st) (latent_codes st) (latent_grad st) (dict_latent_codes st) (res st)
          (disk_results st) (disk_weights st) (log st ++ [ev]).

Definition read_snapshot (st : trainer) (s : snapshot) : matrix F :=
  match s with
  | View => latent_codes st
  | Copy m => m
  end.

Definition np_save_results (st : trainer) : trainer :=
  let r := res st in
  let file := ResultsFile (train_loss r) (read_snapshot st <$> train_latent_codes r)
                          (val_loss r) in
  Trainer (model st) (latent_codes st) (latent_grad st) (dict_latent_codes st) r
          (Some file) (disk_weights st) (log st).

Definition torch_save_weights (st : trainer) : trainer :=
  Trainer (model st) (latent_codes st) (latent_grad st) (dict_latent_codes st) (res st)
          (disk_results st) (Some (model st)) (log st).

(** [Trainer.generate_xy] *)
Definition generate_xy (st : trainer) (b : batch)
    : result (matrix F * list F * list Z * matrix F) :=
  let latent_classes_batch := latent_class <$> batch_rows b in
  let coords_batch := coords <$> batch_rows b in
  let* latent_codes_indexes_batch :=
    mapM (λ c, match dict_latent_codes st !! pretty c with
               | Some i => Ok i
               | None => Raise (KeyError (pretty c))
               end) latent_classes_batch in
  let* latent_codes_batch := mapM (py_index (latent_codes st)) latent_codes_indexes_batch in
  let x := zip_with app latent_codes_batch coords_batch in
  let y := batch_sdf b in
  Ok (x, y, latent_codes_indexes_batch, latent_codes_batch).

(** [grad[i, :].data.zero_()] *)
Definition zero_row (row : list F) : list F := replicate (length row) zero.

(** Lines 128-130 of [train]: one turn of the loop over the rows. *)
Definition zero_if_absent (unique : list Z) (grad : matrix F) (i : nat) : result (matrix F) :=
  if bool_decide (Z.of_nat i ∈ unique) then Ok grad
  else match grad !! i with
       | Some row => Ok (<[i := zero_row row]> grad)
       | None => Raise IndexError
       end.

Definition zero_absent_rows (unique : list Z) (n_rows : nat) (grad : matrix F)
    : result (matrix F) :=
  foldM (zero_if_absent unique) grad (seq 0 n_rows).

(** [optimizer_latent.step()]: plain gradient descent, no weight decay. *)
Definition sgd_step (rate : F) (codes grad : matrix F) : matrix F :=
  zip_with (zip_with (λ p g, sub p (mul rate g))) codes grad.

(** The body of the loop of [train] for one batch: the loss of the batch and
    the trainer after both optimisers have stepped. *)
Definition train_batch (a : args) (st : trainer) (b : batch) : result (F * trainer) :=
  let st := with_latent st (model st) (latent_codes st) None in
  let* xy := generate_xy st b in
  let '(x, y, latent_codes_indexes_batch, latent_codes_batch) := xy in
  let '(loss_value, gmodel, glatent) :=
    backward (model st) x y latent_codes_batch (latent_codes st) in
  let unique_latent_indexes_batch := torch_unique latent_codes_indexes_batch in
  let* glatent' :=
    zero_absent_rows unique_latent_indexes_batch (length (latent_codes st)) glatent in
  let codes' := sgd_step (lr a) (latent_codes st) glatent' in
  let model' := model_step (lr a) (model st) gmodel in
  Ok (loss_value, with_latent st model' codes' (Some glatent')).

(** [total_loss/iterations]: Python raises on a zero float divisor. *)
Definition average (total_loss : F) (iterations : nat) : result F :=
  match iterations with
  | O => Raise ZeroDivisionError
  | S _ => Ok (div total_loss (of_count iterations))
  end.

Definition train (a : args) (st : trainer) (loader : list batch) : result (F * trainer) :=
  let* acc :=
    foldM (λ (acc : F * nat * trainer) b,
             let '(total_loss, iterations, st) := acc in
             let* r := train_batch a st b in
             Ok (add total_loss r.1, S iterations, r.2))
          (zero, O, st) loader in
  let '(total_loss, iterations, st') := acc in
  let* avg_train_loss := average total_loss iterations in
  Ok (avg_train_loss, st').

Definition validate (st : trainer) (loader : list batch) : result F :=
  let* acc :=
    foldM (λ (acc : F * nat) b,
             let '(total_loss, iterations) := acc in
             let* xy := generate_xy st b in
             let '(x, y, _, latent_codes_batch) := xy in
             let loss_value := forward_loss (model st) x y latent_codes_batch in
             Ok (add total_loss loss_value, S iterations))
          (zero, O) loader in
  average acc.1 acc.2.

(** [get_loaders]: the sizes of the 80/20 split of a dataset of [n] samples
    and the number of batches of a loader that drops the last incomplete
    batch. *)
Definition train_size (n : Z) : Z := (8 * n / 10)%Z.
Definition val_size (n : Z) : Z := (n - train_size n)%Z.
Definition loader_batches (size batch_size : Z) : Z := (size / batch_size)%Z.

(** Modelled from the spec: [utils.generate_latent_codes], which is not among
    the sources.  "Given latent size and samples dictionary, returns a
    differentiable matrix (one row per distinct class key) plus a
    class-key→row-index map." *)
Definition generate_latent_codes (latent_size : Z) (class_keys : list string)
    : matrix F * gmap string Z :=
  (imap (λ i _, init_code i <$> seq 0 (Z.to_nat latent_size)) class_keys,
   list_to_map (imap (λ i k, (k, Z.of_nat i)) class_keys)).

(** The snapshot appended at line 58. *)
Definition take_snapshot (st : trainer) : snapshot :=
  if on_cpu then View else Copy (latent_codes st).

(** The body of the loop of [Trainer.__call__] for one epoch. *)
Definition epoch_body (a : args) (st : trainer) (epoch : nat) : result trainer :=
  let st := with_event st (TrainPass epoch) in
  let* r := train a st (train_batches epoch) in
  let '(avg_train_loss, st) := r in
  let st := with_results st (Results (train_loss (res st) ++ [avg_train_loss])
                                     (train_latent_codes (res st))
                                     (val_loss (res st))) in
  let st := with_results st (Results (train_loss (res st))
                                     (train_latent_codes (res st) ++ [take_snapshot st])
                                     (val_loss (res st))) in
  let st := with_event st (ValidationPass epoch) in
  let* avg_val_loss := validate st val_batches in
  let st := with_results st (Results (train_loss (res st))
                                     (train_latent_codes (res st))
                                     (val_loss (res st) ++ [avg_val_loss])) in
  let st := with_event (np_save_results st) (SaveResults epoch) in
  let st := with_event (torch_save_weights st) (SaveWeights epoch) in
  Ok st.

(** The trainer before the first epoch (lines 39-50). *)
Definition init_trainer (a : args) (class_keys : list string) : trainer :=
  let '(codes, dict) := generate_latent_codes (latent_size a) class_keys in
  Trainer model0 codes None dict (Results [] [] []) None None [].

(** The trainer after the first [n] epochs. *)
Definition run_epochs (a : args) (class_keys : list string) (n : nat) : result trainer :=
  foldM (epoch_body a) (init_trainer a class_keys) (seq 0 n).

(** [Trainer.__call__]: [range(self.args.epochs)] is empty for a count that is
    not positive. *)
Definition call (a : args) (class_keys : list string) : result trainer :=
  run_epochs a class_keys (Z.to_nat (epochs a)).

End Trainer.

Lemma elem_of_torch_unique (t : list Z) (i : Z) : i ∈ torch_unique t ↔ i ∈ t.
Proof.
  unfold torch_unique. rewrite merge_sort_Permutation. apply elem_of_remove_dups.
Qed.

(** *** The masking loop *)

Section Masking.
Context {F : Type} (zero : F) (sub mul : F → F → F).
Context {params gparams : Type}.
Context (backward : params → matrix F → list F → matrix F → matrix F
                    → F * gparams * matrix F).
Context (model_step : F → params → gparams → params).

Abbreviation trainer := (@trainer F params).
Abbreviation train_batch := (train_batch zero sub mul backward model_step).

Lemma zero_absent_rows_spec (unique : list Z) (n : nat) (grad : matrix F) :
  n ≤ length grad →
  ∃ masked, zero_absent_rows zero unique n grad = Ok masked
    ∧ length masked = length grad
    ∧ ∀ i row, grad !! i = Some row →
        masked !! i = Some (if decide (i < n ∧ Z.of_nat i ∉ unique)
                            then zero_row zero row else row).
Proof.
  unfold zero_absent_rows. induction n as [|n IH]; intros Hn.
  - exists grad. split; [reflexivity|]. split; [reflexivity|].
    intros i row Hrow. rewrite decide_False by lia. exact Hrow.
  - destruct IH as (g & Hg & Hlen & Hrows); [lia|].
    rewrite seq_S, foldM_app, Hg, bind_Ok_l. simpl.
    unfold zero_if_absent. case_bool_decide as Hin.
    + exists g. split; [reflexivity|]. split; [exact Hlen|].
      intros i row Hrow. rewrite (Hrows i row Hrow).
      destruct (decide (i = n)) as [->|Hne].
      * rewrite !decide_False by tauto. reflexivity.
      * destruct (decide (i < n ∧ Z.of_nat i ∉ unique)) as [[? ?]|Hno].
        -- rewrite decide_True by (split; [lia | assumption]). reflexivity.
        -- rewrite decide_False; [reflexivity|]. intros [? ?]. apply Hno. split; [lia | assumption].
    + destruct (lookup_lt_is_Some_2 grad n) as [row_n Hrow_n]; [lia|].
      rewrite (Hrows n row_n Hrow_n), decide_False by lia.
      exists (<[n := zero_row zero row_n]> g).
      split; [reflexivity|]. split; [now rewrite length_insert|].
      intros i row Hrow. destruct (decide (i = n)) as [->|Hne].
      * rewrite list_lookup_insert_eq by lia.
        rewrite decide_True by (split; [lia | assumption]).
        rewrite Hrow_n in Hrow. now injection Hrow as ->.
      * rewrite list_lookup_insert_ne by congruence. rewrite (Hrows i row Hrow).
        destruct (decide (i < n ∧ Z.of_nat i ∉ unique)) as [[? ?]|Hno].
        -- rewrite decide_True by (split; [lia | assumption]). reflexivity.
        -- rewrite decide_False; [reflexivity|]. intros [? ?]. apply Hno. split; [lia | assumption].
Qed.

(** C2. In a training batch, after the backward pass and before either
    optimiser steps, row [i] of the latent-code gradient is zero for every
    class index [i] absent from the batch, and the rows of the classes of the
    batch are as the backward pass left them; the optimisers step on that
    gradient. *)
Theorem train_batch_masks_absent_rows (a : args) (st : trainer) (b : batch)
    x y idxs codes_batch loss_value gmodel glatent :
  generate_xy st b = Ok (x, y, idxs, codes_batch) →
  backward (model st) x y codes_batch (latent_codes st) = (loss_value, gmodel, glatent) →
  length glatent = length (latent_codes st) →
  ∃ masked,
    train_batch a st b
    = Ok (loss_value,
          with_latent st (model_step (lr a) (model st) gmodel)
                      (sgd_step sub mul (lr a) (latent_codes st) masked) (Some masked))
    ∧ length masked = length glatent
    ∧ ∀ i row, glatent !! i = Some row →
        (Z.of_nat i ∉ idxs → masked !! i = Some (replicate (length row) zero))
        ∧ (Z.of_nat i ∈ idxs → masked !! i = Some row).
Proof.
  intros Hxy Hback Hlen.
  destruct (zero_absent_rows_spec (torch_unique idxs) (length (latent_codes st)) glatent)
    as (masked & Hmask & Hlen' & Hrows); [lia|].
  exists masked. split; [|split; [exact Hlen'|]].
  - unfold Train.train_batch.
    change (generate_xy (with_latent st (model st) (latent_codes st) None) b)
      with (generate_xy st b).
    rewrite Hxy, bind_Ok_l. simpl. rewrite Hback, Hmask. reflexivity.
  - intros i row Hrow. rewrite (Hrows i row Hrow).
    assert (i < length (latent_codes st)) as Hi.
    { rewrite <- Hlen. eapply lookup_lt_Some. eassumption. }
    split; intros Hin.
    + rewrite decide_True; [reflexivity|]. split; [lia|].
      now rewrite elem_of_torch_unique.
    + rewrite decide_False; [reflexivity|]. intros [_ Hno]. apply Hno.
      now rewrite elem_of_torch_unique.
Qed.

End Masking.

(** *** The per-epoch invariant of [Trainer.__call__] *)

Section TrainerFacts.
Context {F : Type} (zero : F) (add sub mul div : F → F → F) (of_count : nat → F).
Context {params gparams : Type}.
Context (backward : params → matrix F → list F → matrix F → matrix F
                    → F * gparams * matrix F).
Context (forward_loss : params → matrix F → list F → matrix F → F).
Context (model_step : F → params → gparams → params).
Context (train_batches : nat → list (@batch F)) (val_batches : list (@batch F)).
Context (on_cpu : bool) (model0 : params) (init_code : nat → nat → F).

Abbreviation trainer := (@trainer F params).
Abbreviation train_batch := (train_batch zero sub mul backward model_step).
Abbreviation train := (train zero add sub mul div of_count backward model_step).
Abbreviation validate := (validate zero add div of_count forward_loss).
Abbreviation epoch_body :=
  (epoch_body zero add sub mul div of_count backward forward_loss model_step
              train_batches val_batches on_cpu).
Abbreviation run_epochs :=
  (run_epochs zero add sub mul div of_count backward forward_loss model_step
              train_batches val_batches on_cpu model0 init_code).

(** The events of the first [n] epochs, in order. *)
Definition epoch_log (n : nat) : list event :=
  flat_map (λ k, [TrainPass k; ValidationPass k; SaveResults k; SaveWeights k]) (seq 0 n).

(** What holds once [n] epochs have completed, for [R] classes and latent
    codes of size [C]. *)
Definition after_epochs (R C n : nat) (st : trainer) : Prop :=
  length (train_loss (res st)) = n
  ∧ length (val_loss (res st)) = n
  ∧ length (train_latent_codes (res st)) = n
  ∧ Forall (λ s, has_shape (read_snapshot st s) R C) (train_latent_codes (res st))
  ∧ has_shape (latent_codes st) R C
  ∧ log st = epoch_log n
  ∧ (0 < n →
     disk_results st
     = Some (ResultsFile (train_loss (res st))
                         (read_snapshot st <$> train_latent_codes (res st))
                         (val_loss (res st)))
     ∧ disk_weights st = Some (model st)).

(** What a training pass leaves alone. *)
Definition frame (st st' : trainer) : Prop :=
  dict_latent_codes st' = dict_latent_codes st
  ∧ res st' = res st
  ∧ disk_results st' = disk_results st
  ∧ disk_weights st' = disk_weights st
  ∧ log st' = log st.

Lemma zero_absent_rows_shape unique n (grad masked : matrix F) r c :
  has_shape grad r c → zero_absent_rows zero unique n grad = Ok masked →
  has_shape masked r c.
Proof.
  unfold zero_absent_rows.
  apply (foldM_invariant (λ g : matrix F, has_shape g r c)).
  intros g i g' [Hlen Hrows] Hstep. unfold zero_if_absent in Hstep.
  case_bool_decide; [injection Hstep as <-; now split|].
  destruct (g !! i) as [row|] eqn:Hrow; [|discriminate]. injection Hstep as <-.
  split; [now rewrite length_insert|].
  apply Forall_insert; [assumption|]. unfold zero_row. rewrite length_replicate.
  eapply (proj1 (Forall_lookup _ _) Hrows). eassumption.
Qed.

Lemma sgd_step_shape rate (codes grad : matrix F) r c :
  has_shape codes r c → has_shape grad r c →
  has_shape (sgd_step sub mul rate codes grad) r c.
Proof.
  intros [Hlc Hrc] [Hlg Hrg]. unfold sgd_step. split.
  - rewrite length_zip_with_l_eq; congruence.
  - apply Forall_lookup. intros i row Hrow.
    apply lookup_zip_with_Some in Hrow as (p & g & -> & Hp & Hg).
    rewrite length_zip_with_l_eq.
    + eapply (proj1 (Forall_lookup _ _) Hrc). eassumption.
    + rewrite (proj1 (Forall_lookup _ _) Hrc _ _ Hp).
      now rewrite (proj1 (Forall_lookup _ _) Hrg _ _ Hg).
Qed.

Lemma generate_latent_codes_shape latent_size (class_keys : list string) :
  has_shape (generate_latent_codes init_code latent_size class_keys).1
            (length class_keys) (Z.to_nat latent_size).
Proof.
  simpl. split; [apply length_imap|].
  apply Forall_lookup. intros i row Hrow.
  rewrite list_lookup_imap in Hrow.
  destruct (class_keys !! i); [|discriminate]. injection Hrow as <-.
  now rewrite length_fmap, length_seq.
Qed.

(** The gradient that autograd stores for a parameter has the shape of the
    parameter. *)
Hypothesis backward_shape : ∀ m x y codes_batch codes r c,
  has_shape codes r c → has_shape (backward m x y codes_batch codes).2 r c.

Lemma train_batch_frame (a : args) (st st' : trainer) (b : batch) loss_value R C :
  has_shape (latent_codes st) R C →
  train_batch a st b = Ok (loss_value, st') →
  frame st st' ∧ has_shape (latent_codes st') R C.
Proof.
  intros Hshape Hrun. unfold Train.train_batch in Hrun.
  apply bind_Ok in Hrun as ([[[x y] idxs] cb] & _ & Hrun). simpl in Hrun.
  pose proof (backward_shape (model st) x y cb (latent_codes st) R C Hshape) as Hgrad.
  destruct (backward (model st) x y cb (latent_codes st)) as [[l gm] gl].
  apply bind_Ok in Hrun as (masked & Hmask & Hrun). injection Hrun as <- <-.
  split; [now repeat split|]. simpl.
  apply sgd_step_shape; [assumption|].
  eapply zero_absent_rows_shape; eassumption.
Qed.

Lemma train_frame (a : args) (st st' : trainer) loader avg R C :
  has_shape (latent_codes st) R C →
  train a st loader = Ok (avg, st') →
  frame st st' ∧ has_shape (latent_codes st') R C.
Proof.
  intros Hshape Hrun. unfold Train.train in Hrun.
  apply bind_Ok in Hrun as ([[total n] st1] & Hfold & Hrun).
  apply bind_Ok in Hrun as (avg' & _ & Hrun). injection Hrun as <- <-.
  revert Hfold.
  apply (foldM_invariant
           (λ acc : F * nat * trainer, frame st acc.2 ∧ has_shape (latent_codes acc.2) R C)).
  - intros [[t k] s0] b0 [[t' k'] s1] [Hfr Hsh] Hstep. simpl in *.
    apply bind_Ok in Hstep as ([l s2] & Hbatch & Hstep). injection Hstep as <- <- <-.
    destruct (train_batch_frame _ _ _ _ _ _ _ Hsh Hbatch) as [Hfr' Hsh'].
    split; [|assumption]. unfold frame in *. simpl. intuition congruence.
  - split; [now repeat split | assumption].
Qed.

Lemma epoch_log_S n :
  epoch_log (S n)
  = epoch_log n ++ [TrainPass n; ValidationPass n; SaveResults n; SaveWeights n].
Proof. unfold epoch_log. rewrite seq_S, flat_map_app. reflexivity. Qed.

Lemma read_snapshot_shape (st st' : trainer) (s : snapshot) R C :
  has_shape (latent_codes st') R C →
  has_shape (read_snapshot st s) R C → has_shape (read_snapshot st' s) R C.
Proof. destruct s; simpl; tauto. Qed.

Lemma epoch_body_invariant (a : args) (st st' : trainer) n R C :
  after_epochs R C n st → epoch_body a st n = Ok st' → after_epochs R C (S n) st'.
Proof.
  intros (Htl & Hvl & Hsn & Hsnaps & Hshape & Hlog & _) Hrun.
  unfold Train.epoch_body in Hrun.
  apply bind_Ok in Hrun as ([avg st1] & Htrain & Hrun).
  apply train_frame with (R := R) (C := C) in Htrain as [(Hd & Hres & Hdr & Hdw & Hl) Hsh1];
    [|exact Hshape].
  apply bind_Ok in Hrun as (avg_val & _ & Hrun). injection Hrun as <-.
  simpl in Hres, Hl. unfold after_epochs. simpl. rewrite Hres, Hl.
  rewrite !length_app, Htl, Hvl, Hsn. simpl.
  split; [lia|]. split; [lia|]. split; [lia|]. split; [|split; [exact Hsh1|split]].
  - apply Forall_app. split.
    + eapply Forall_impl; [exact Hsnaps|]. intros s Hs.
      destruct s; [exact Hsh1 | exact Hs].
    + constructor; [|constructor]. unfold take_snapshot. destruct on_cpu; exact Hsh1.
  - rewrite Hlog, epoch_log_S, <- !app_assoc. reflexivity.
  - intros _. split; reflexivity.
Qed.

(** After epoch [e] of the training driver has completed, the results record
    holds [e] training losses, [e] validation losses and [e] entries of shape
    (num_classes, latent_size) in the list of latent codes; the results file
    and the checkpoint have been written in each completed epoch, after its
    passes and before the training pass of the next epoch, and hold the
    current record and weights. *)
Theorem run_epochs_invariant (a : args) (class_keys : list string) (e : nat) (st : trainer) :
  run_epochs a class_keys e = Ok st →
  after_epochs (length class_keys) (Z.to_nat (latent_size a)) e st.
Proof.
  revert st. unfold Train.run_epochs. induction e as [|e IH]; intros st Hrun.
  - injection Hrun as <-. unfold init_trainer.
    pose proof (generate_latent_codes_shape (latent_size a) class_keys) as Hshape.
    destruct (generate_latent_codes init_code (latent_size a) class_keys) as [codes dict].
    unfold after_epochs. simpl.
    split; [reflexivity|]. split; [reflexivity|]. split; [reflexivity|].
    split; [constructor|]. split; [exact Hshape|]. split; [reflexivity | lia].
  - rewrite seq_S, foldM_app in Hrun.
    apply bind_Ok in Hrun as (st0 & Hrun0 & Hstep). simpl in Hstep.
    apply bind_Ok in Hstep as (st1 & Hbody & Hst). injection Hst as <-.
    eapply epoch_body_invariant; [apply IH|]; eassumption.
Qed.

(** The state after epoch [e] is the state that [Trainer.__call__] continues
    from. *)
Lemma call_through_epoch (a : args) (class_keys : list string) (e : nat) :
  e ≤ Z.to_nat (epochs a) →
  call zero add sub mul div of_count backward forward_loss model_step
       train_batches val_batches on_cpu model0 init_code a class_keys
  = let* st := run_epochs a class_keys e in
    foldM (epoch_body a) st (seq e (Z.to_nat (epochs a) - e)).
Proof.
  intros He. unfold call, Train.run_epochs. rewrite <- foldM_app.
  change e with (0 + e) at 3. rewrite <- seq_app. do 2 f_equal. lia.
Qed.

(** A validation loader without a full batch ends the epoch with Python's
    division error. *)
Lemma validate_no_batch (st : trainer) : validate st [] = Raise ZeroDivisionError.
Proof. reflexivity. Qed.

End TrainerFacts.

(** *** A run on integers: classes "0", "1", "2", latent size 2 *)

Definition toy_backward (m : Z) (x : matrix Z) (y : list Z) (codes_batch codes : matrix Z)
    : Z * Z * matrix Z :=
  (7%Z, 1%Z, (λ row : list Z, (λ v, (v + 1)%Z) <$> row) <$> codes).

Definition toy_args : @args Z := Args 42%Z 2%Z 1%Z 2%Z 2%Z.
Definition toy_init (i j : nat) : Z := Z.of_nat (10 * i + j).
Definition toy_batch (c1 c2 : Z) : @batch Z :=
  Batch [SampleRow c1 [1; 2; 3]; SampleRow c2 [4; 5; 6]]%Z [0; 0]%Z.
Definition toy_trainer : @trainer Z Z := init_trainer 0%Z toy_init toy_args ["0"; "1"; "2"].

Lemma toy_backward_shape m x y codes_batch codes r c :
  has_shape codes r c → has_shape (toy_backward m x y codes_batch codes).2 r c.
Proof.
  intros [Hlen Hrows]. simpl. split; [now rewrite length_fmap|].
  apply Forall_fmap. eapply Forall_impl; [exact Hrows|].
  intros row Hrow. simpl. now rewrite length_fmap.
Qed.

Definition toy_model_step (rate m g : Z) : Z := (m - rate * g)%Z.

(** A batch of classes "0" and "2" out of "0", "1", "2": the gradient row of
    class "1" is zeroed, the other two are kept. *)
Lemma train_batch_masks_absent_rows_witness :
  generate_xy toy_trainer (toy_batch 0 2)
  = Ok ([[0; 1; 1; 2; 3]; [20; 21; 4; 5; 6]]%Z, [0; 0]%Z, [0; 2]%Z, [[0; 1]; [20; 21]]%Z)
  ∧ toy_backward (model toy_trainer) [[0; 1; 1; 2; 3]; [20; 21; 4; 5; 6]]%Z [0; 0]%Z
                 [[0; 1]; [20; 21]]%Z (latent_codes toy_trainer)
    = (7%Z, 1%Z, [[1; 2]; [11; 12]; [21; 22]]%Z)
  ∧ ∃ masked,
      train_batch 0%Z Z.sub Z.mul toy_backward toy_model_step
                  toy_args toy_trainer (toy_batch 0 2)
      = Ok (7%Z, with_latent toy_trainer (toy_model_step 1 (model toy_trainer) 1)
                   (sgd_step Z.sub Z.mul 1%Z (latent_codes toy_trainer) masked)
                   (Some masked))
      ∧ length masked = 3
      ∧ ∀ i row, [[1; 2]; [11; 12]; [21; 22]]%Z !! i = Some row →
          (Z.of_nat i ∉ [0; 2]%Z → masked !! i = Some (replicate (length row) 0%Z))
          ∧ (Z.of_nat i ∈ [0; 2]%Z → masked !! i = Some row).
Proof.
  split; [reflexivity|]. split; [reflexivity|].
  exact (train_batch_masks_absent_rows 0%Z Z.sub Z.mul toy_backward toy_model_step
           toy_args toy_trainer (toy_batch 0 2)
           [[0; 1; 1; 2; 3]; [20; 21; 4; 5; 6]]%Z [0; 0]%Z [0; 2]%Z
           [[0; 1]; [20; 21]]%Z 7%Z 1%Z [[1; 2]; [11; 12]; [21; 22]]%Z
           eq_refl eq_refl eq_refl).
Defined.

(** The same batch by evaluation: the masked gradient and the codes after the
    step of the optimiser. *)
Example train_batch_classes_0_2 :
  train_batch 0%Z Z.sub Z.mul toy_backward toy_model_step toy_args toy_trainer (toy_batch 0 2)
  = Ok (7%Z, with_latent toy_trainer (-1)%Z [[-1; -1]; [10; 11]; [-1; -1]]%Z
               (Some [[1; 2]; [0; 0]; [21; 22]]%Z)).
Proof. vm_compute. reflexivity. Qed.

(** Two epochs with one training batch and one validation batch each. *)
Definition toy_run (on_cpu : bool) (n : nat) : result (@trainer Z Z) :=
  run_epochs 0%Z Z.add Z.sub Z.mul Z.div Z.of_nat toy_backward (λ _ _ _ _, 5%Z)
             toy_model_step (λ epoch, [toy_batch 0 (Z.of_nat epoch)]) [toy_batch 1 2]
             on_cpu 0%Z toy_init toy_args ["0"; "1"; "2"] n.

Lemma run_epochs_invariant_witness :
  ∃ st, toy_run true 2 = Ok st ∧ after_epochs 3 2 2 st.
Proof.
  destruct (toy_run true 2) as [st|e] eqn:Hrun.
  - exists st. split; [reflexivity|].
    exact (run_epochs_invariant 0%Z Z.add Z.sub Z.mul Z.div Z.of_nat toy_backward
             (λ _ _ _ _, 5%Z) toy_model_step (λ epoch, [toy_batch 0 (Z.of_nat epoch)])
             [toy_batch 1 2] true 0%Z toy_init toy_backward_shape toy_args
             ["0"; "1"; "2"] 2 st Hrun).
  - vm_compute in Hrun. discriminate Hrun.
Defined.

(** On the CPU the entries of the results record are views of the parameter:
    both read the codes of the second epoch.  Elsewhere they are copies. *)
Example toy_run_results_cpu :
  result_map (λ st, (train_loss (res st), read_snapshot st <$> train_latent_codes (res st),
                     val_loss (res st), length (log st)))
             (toy_run true 2)
  = Ok ([7; 7]%Z, [[[-1; -1]; [-1; -1]; [20; 21]]; [[-1; -1]; [-1; -1]; [20; 21]]]%Z,
        [5; 5]%Z, 8).
Proof. vm_compute. reflexivity. Qed.

Example toy_run_results_cuda :
  result_map (λ st, read_snapshot st <$> train_latent_codes (res st)) (toy_run false 2)
  = Ok [[[-1; -1]; [10; 11]; [20; 21]]; [[-1; -1]; [-1; -1]; [20; 21]]]%Z.
Proof. vm_compute. reflexivity. Qed.

(** The end-to-end scenario of the specification, 20 samples in batches of
    five, leaves four validation samples: the validation loader is empty and
    the first epoch raises. *)
Example scenario_loaders :
  loader_batches (train_size 20) 5 = 3%Z ∧ loader_batches (val_size 20) 5 = 0%Z.
Proof. split; reflexivity. Qed.

Example toy_run_empty_validation :
  run_epochs 0%Z Z.add Z.sub Z.mul Z.div Z.of_nat toy_backward (λ _ _ _ _, 5%Z)
             toy_model_step (λ epoch, [toy_batch 0 1]) []
             true 0%Z toy_init toy_args ["0"; "1"] 2
  = Raise ZeroDivisionError.
Proof. vm_compute. reflexivity. Qed.

(** *** Further facts about the batches *)

Lemma mapM_first_error {A B} (f : A → result B) (pre post : list A) (x : A) (e : exception) :
  Forall (λ a, is_ok (f a) = true) pre → f x = Raise e →
  mapM f (pre ++ x :: post) = Raise e.
Proof.
  intros Hpre Hx. induction Hpre as [|a pre Ha Hpre IH]; simpl.
  - now rewrite Hx.
  - destruct (f a); [|discriminate]. simpl. now rewrite IH.
Qed.

Lemma mapM_fmap_Ok {A B} (f : A → result B) (g : A → B) (l : list A) :
  Forall (λ a, f a = Ok (g a)) l → mapM f l = Ok (g <$> l).
Proof.
  intros Hl. induction Hl as [|a l Ha Hl IH]; [reflexivity|].
  simpl. now rewrite Ha, IH.
Qed.

Lemma zip_with_zero_row {F} (zero : F) (f : F → F → F) (row : list F) :
  (∀ p, f p zero = p) → zip_with f row (replicate (length row) zero) = row.
Proof.
  intros Hf. induction row as [|p row IH]; [reflexivity|]. simpl. now rewrite Hf, IH.
Qed.

Section BatchFacts.
Context {F : Type} (zero : F) (sub mul : F → F → F).
Context {params gparams : Type}.
Context (backward : params → matrix F → list F → matrix F → matrix F
                    → F * gparams * matrix F).
Context (model_step : F → params → gparams → params).

Abbreviation trainer := (@trainer F params).
Abbreviation train_batch := (train_batch zero sub mul backward model_step).

(** X10. [generate_xy] raises [KeyError] for the first sample of the batch
    whose class has no entry in [dict_latent_codes], with the class as key. *)
Theorem generate_xy_unresolved_class (st : trainer) (b : batch)
    (pre post : list sample_row) (r : sample_row) :
  batch_rows b = pre ++ r :: post →
  Forall (λ r', is_Some (dict_latent_codes st !! pretty (latent_class r'))) pre →
  dict_latent_codes st !! pretty (latent_class r) = None →
  generate_xy st b = Raise (KeyError (pretty (latent_class r))).
Proof.
  intros Hrows Hpre Hr. unfold generate_xy. rewrite Hrows, fmap_app, fmap_cons.
  rewrite (mapM_first_error _ _ _ _ (KeyError (pretty (latent_class r)))); [reflexivity| |].
  - apply Forall_fmap. eapply Forall_impl; [exact Hpre|].
    intros r' [i Hi]. simpl. now rewrite Hi.
  - now rewrite Hr.
Qed.

(** X11. When every class of the batch resolves to a row of the latent-code
    matrix and every sample has three coordinates, [generate_xy] returns one
    input row per sample, the latent code of its class followed by its
    coordinates (width latent_size + 3), with the indices and the codes of
    the batch. *)
Theorem generate_xy_rows (st : trainer) (b : batch) (n_rows n_cols : nat) :
  has_shape (latent_codes st) n_rows n_cols →
  Forall (λ r, ∃ i, dict_latent_codes st !! pretty (latent_class r) = Some i
                    ∧ (0 <= i < Z.of_nat n_rows)%Z) (batch_rows b) →
  Forall (λ r, length (coords r) = 3) (batch_rows b) →
  let idxs := (λ r, default 0%Z (dict_latent_codes st !! pretty (latent_class r)))
              <$> batch_rows b in
  let codes := (λ i, default [] (latent_codes st !! Z.to_nat i)) <$> idxs in
  let x := zip_with app codes (coords <$> batch_rows b) in
  generate_xy st b = Ok (x, batch_sdf b, idxs, codes)
  ∧ has_shape x (length (batch_rows b)) (n_cols + 3)
  ∧ has_shape codes (length (batch_rows b)) n_cols
  ∧ Forall (λ i, (0 <= i < Z.of_nat n_rows)%Z) idxs.
Proof.
  intros [Hlen Hcols] Hres Hcoords idxs codes x.
  assert (Forall (λ i, (0 <= i < Z.of_nat n_rows)%Z) idxs) as Hidxs.
  { apply Forall_fmap. eapply Forall_impl; [exact Hres|].
    intros r (i & Hi & Hrange). simpl. now rewrite Hi. }
  assert (has_shape codes (length (batch_rows b)) n_cols) as Hcodes.
  { split; [unfold codes, idxs; now rewrite !length_fmap|].
    apply Forall_fmap. eapply Forall_impl; [exact Hidxs|]. intros i Hi.
    cbv beta in Hi. simpl.
    destruct (lookup_lt_is_Some_2 (latent_codes st) (Z.to_nat i)) as [row Hrow]; [lia|].
    rewrite Hrow. simpl. eapply (proj1 (Forall_lookup _ _) Hcols). eassumption. }
  split; [|split; [|split; assumption]].
  - unfold generate_xy.
    rewrite (mapM_fmap_Ok _ (λ c, default 0%Z (dict_latent_codes st !! pretty c))).
    + rewrite bind_Ok_l, <- list_fmap_compose. fold idxs.
      rewrite (mapM_fmap_Ok _ (λ i, default [] (latent_codes st !! Z.to_nat i))).
      * reflexivity.
      * eapply Forall_impl; [exact Hidxs|]. intros i Hi. cbv beta in Hi.
        unfold py_index.
        destruct (Z.ltb_spec i 0); [lia|].
        destruct (Z.leb_spec 0 i); [|lia].
        destruct (Z.ltb_spec i (Z.of_nat (length (latent_codes st)))); [|lia]. simpl.
        destruct (lookup_lt_is_Some_2 (latent_codes st) (Z.to_nat i)) as [row Hrow]; [lia|].
        now rewrite Hrow.
    + apply Forall_fmap. eapply Forall_impl; [exact Hres|].
      intros r (i & Hi & _). simpl. now rewrite Hi.
  - destruct Hcodes as [Hclen Hccols]. split.
    + unfold x. rewrite length_zip_with_l_eq; [assumption|]. now rewrite Hclen, length_fmap.
    + apply Forall_lookup. intros k row Hrow. unfold x in Hrow.
      apply lookup_zip_with_Some in Hrow as (code & cs & -> & Hcode & Hcs).
      rewrite length_app. f_equal.
      * eapply (proj1 (Forall_lookup _ _) Hccols). eassumption.
      * apply list_lookup_fmap_Some in Hcs as (r & -> & Hr).
        eapply (proj1 (Forall_lookup _ _) Hcoords). eassumption.
Qed.

(** X12. A training batch does not move the latent code of a class that is
    absent from the batch: its gradient row is zeroed, and the plain
    gradient step with a zero gradient leaves the row as it was. *)
Theorem train_batch_keeps_absent_codes (a : args) (st : trainer) (b : batch)
    x y idxs codes_batch loss_value gmodel glatent (n_rows n_cols : nat) :
  mul (lr a) zero = zero → (∀ p, sub p zero = p) →
  has_shape (latent_codes st) n_rows n_cols →
  generate_xy st b = Ok (x, y, idxs, codes_batch) →
  backward (model st) x y codes_batch (latent_codes st) = (loss_value, gmodel, glatent) →
  has_shape glatent n_rows n_cols →
  ∃ st', train_batch a st b = Ok (loss_value, st')
         ∧ ∀ i, Z.of_nat i ∉ idxs → latent_codes st' !! i = latent_codes st !! i.
Proof.
  intros Hmul Hsub [Hlen Hcols] Hxy Hback [Hglen Hgcols].
  destruct (zero_absent_rows_spec zero sub mul model_step (torch_unique idxs)
              (length (latent_codes st)) glatent) as (masked & Hmask & Hmlen & Hrows);
    [lia|].
  eexists. split.
  - unfold Train.train_batch.
    change (generate_xy (with_latent st (model st) (latent_codes st) None) b)
      with (generate_xy st b).
    rewrite Hxy, bind_Ok_l. simpl. rewrite Hback, Hmask. reflexivity.
  - intros i Hi. simpl. unfold sgd_step. rewrite lookup_zip_with.
    destruct (latent_codes st !! i) as [row|] eqn:Hrow; [|reflexivity]. simpl.
    assert (i < length glatent) as Hig.
    { rewrite Hglen, <- Hlen. eapply lookup_lt_Some. eassumption. }
    destruct (lookup_lt_is_Some_2 glatent i Hig) as [grow Hgrow].
    rewrite (Hrows i grow Hgrow), decide_True.
    + simpl. f_equal. unfold zero_row.
      rewrite (proj1 (Forall_lookup _ _) Hgcols _ _ Hgrow).
      rewrite <- (proj1 (Forall_lookup _ _) Hcols _ _ Hrow).
      apply zip_with_zero_row. intros p. now rewrite Hmul, Hsub.
    + split; [lia|]. now rewrite elem_of_torch_unique.
Qed.

End BatchFacts.

(** The batch of classes "0" and "2": the code of class "1" stays. *)
Lemma train_batch_keeps_absent_codes_witness :
  ∃ st', train_batch 0%Z Z.sub Z.mul toy_backward toy_model_step toy_args toy_trainer
                     (toy_batch 0 2) = Ok (7%Z, st')
         ∧ latent_codes st' !! 1 = Some [10; 11]%Z.
Proof.
  destruct (train_batch_keeps_absent_codes 0%Z Z.sub Z.mul toy_backward toy_model_step
              toy_args toy_trainer (toy_batch 0 2)
              [[0; 1; 1; 2; 3]; [20; 21; 4; 5; 6]]%Z [0; 0]%Z [0; 2]%Z
              [[0; 1]; [20; 21]]%Z 7%Z 1%Z [[1; 2]; [11; 12]; [21; 22]]%Z 3 2)
    as (st' & Hrun & Hkeep).
  - reflexivity.
  - intros p. lia.
  - split; [reflexivity | repeat constructor].
  - reflexivity.
  - reflexivity.
  - split; [reflexivity | repeat constructor].
  - exists st'. split; [exact Hrun|]. rewrite (Hkeep 1); [reflexivity|].
    intros Hin. repeat (apply elem_of_cons in Hin as [Hin|Hin]; [discriminate|]).
    inversion Hin.
Defined.

Lemma generate_xy_unresolved_class_witness :
  generate_xy toy_trainer (toy_batch 0 7) = Raise (KeyError "7").
Proof.
  apply (generate_xy_unresolved_class toy_trainer (toy_batch 0 7)
           [SampleRow 0 [1; 2; 3]%Z] [] (SampleRow 7 [4; 5; 6]%Z)).
  - reflexivity.
  - repeat constructor. simpl. vm_compute. eauto.
  - vm_compute. reflexivity.
Defined.

Lemma generate_xy_rows_witness :
  generate_xy toy_trainer (toy_batch 2 1)
  = Ok ([[20; 21; 1; 2; 3]; [10; 11; 4; 5; 6]]%Z, [0; 0]%Z, [2; 1]%Z, [[20; 21]; [10; 11]]%Z).
Proof.
  apply (generate_xy_rows toy_trainer (toy_batch 2 1) 3 2).
  - split; [reflexivity | repeat constructor].
  - apply Forall_cons_2; [exists 2%Z; split; [vm_compute; reflexivity | lia]|].
    apply Forall_cons_2; [exists 1%Z; split; [vm_compute; reflexivity | lia]|].
    apply Forall_nil_2.
  - repeat constructor.
Defined.

(** *** The record of a run across the epochs *)

Section EpochFacts.
Context {F : Type} (zero : F) (add sub mul div : F → F → F) (of_count : nat → F).
Context {params gparams : Type}.
Context (backward : params → matrix F → list F → matrix F → matrix F
                    → F * gparams * matrix F).
Context (forward_loss : params → matrix F → list F → matrix F → F).
Context (model_step : F → params → gparams → params).
Context (train_batches : nat → list (@batch F)) (val_batches : list (@batch F)).
Context (on_cpu : bool) (model0 : params) (init_code : nat → nat → F).

Abbreviation trainer := (@trainer F params).
Abbreviation train_batch := (train_batch zero sub mul backward model_step).
Abbreviation train := (train zero add sub mul div of_count backward model_step).
Abbreviation validate := (validate zero add div of_count forward_loss).
Abbreviation epoch_body :=
  (epoch_body zero add sub mul div of_count backward forward_loss model_step
              train_batches val_batches on_cpu).
Abbreviation run_epochs :=
  (run_epochs zero add sub mul div of_count backward forward_loss model_step
              train_batches val_batches on_cpu model0 init_code).

Lemma train_batch_keeps (a : args) (st st' : trainer) (b : batch) loss_value :
  train_batch a st b = Ok (loss_value, st') → frame st st'.
Proof.
  intros Hrun. unfold Train.train_batch in Hrun.
  apply bind_Ok in Hrun as ([[[x y] idxs] cb] & _ & Hrun). simpl in Hrun.
  destruct (backward (model st) x y cb (latent_codes st)) as [[l gm] gl].
  apply bind_Ok in Hrun as (masked & _ & Hrun). injection Hrun as <- <-.
  now repeat split.
Qed.

Lemma train_keeps (a : args) (st st' : trainer) loader avg :
  train a st loader = Ok (avg, st') → frame st st'.
Proof.
  intros Hrun. unfold Train.train in Hrun.
  apply bind_Ok in Hrun as ([[total n] st1] & Hfold & Hrun).
  apply bind_Ok in Hrun as (avg' & _ & Hrun). injection Hrun as <- <-.
  revert Hfold.
  apply (foldM_invariant (λ acc : F * nat * trainer, frame st acc.2)).
  - intros [[t k] s0] b0 [[t' k'] s1] Hfr Hstep. simpl in *.
    apply bind_Ok in Hstep as ([l s2] & Hbatch & Hstep). injection Hstep as <- <- <-.
    apply train_batch_keeps in Hbatch.
    unfold frame in *. simpl. intuition congruence.
  - now repeat split.
Qed.

Lemma run_epochs_S (a : args) (class_keys : list string) (n : nat) :
  run_epochs a class_keys (S n)
  = let* st := run_epochs a class_keys n in epoch_body a st n.
Proof.
  unfold Train.run_epochs. rewrite seq_S, foldM_app. simpl.
  destruct (foldM _ _ (seq 0 n)) as [st|e]; [|reflexivity]. simpl.
  destruct (Train.epoch_body _ _ _ _ _ _ _ _ _ _ _ _ _ _ _); reflexivity.
Qed.

(** What one completed epoch does to the trainer. *)
Lemma epoch_body_effect (a : args) (st st' : trainer) (n : nat) :
  epoch_body a st n = Ok st' →
  ∃ avg avg_val st1,
    train a (with_event st (TrainPass n)) (train_batches n) = Ok (avg, st1)
    ∧ dict_latent_codes st' = dict_latent_codes st
    ∧ latent_codes st' = latent_codes st1
    ∧ res st' = Results (train_loss (res st) ++ [avg])
                        (train_latent_codes (res st) ++ [take_snapshot on_cpu st1])
                        (val_loss (res st) ++ [avg_val])
    ∧ disk_results st'
      = Some (ResultsFile (train_loss (res st') )
                          (read_snapshot st' <$> train_latent_codes (res st'))
                          (val_loss (res st'))).
Proof.
  intros Hrun. unfold Train.epoch_body in Hrun.
  apply bind_Ok in Hrun as ([avg st1] & Htrain & Hrun).
  pose proof (train_keeps _ _ _ _ _ Htrain) as (Hd & Hres & _).
  apply bind_Ok in Hrun as (avg_val & _ & Hrun). injection Hrun as <-.
  exists avg, avg_val, st1. simpl in Hd, Hres. simpl. rewrite Hres.
  split; [exact Htrain|]. split; [exact Hd|]. split; [reflexivity|].
  split; [destruct on_cpu; reflexivity|]. reflexivity.
Qed.

Lemma init_trainer_res (a : args) (class_keys : list string) :
  res (init_trainer model0 init_code a class_keys) = Results [] [] []
  ∧ dict_latent_codes (init_trainer model0 init_code a class_keys)
    = (generate_latent_codes init_code (latent_size a) class_keys).2.
Proof. split; reflexivity. Qed.

(** X13. If [n + k] epochs complete, the first [n] completed as well, and
    the losses and snapshots recorded by then are a prefix of the later
    record: an epoch only appends.  The class-to-row dictionary is the one
    built before the first epoch throughout. *)
Theorem run_epochs_history_grows (a : args) (class_keys : list string) (n k : nat)
    (st_m : trainer) :
  run_epochs a class_keys (n + k) = Ok st_m →
  ∃ st_n, run_epochs a class_keys n = Ok st_n
    ∧ train_loss (res st_n) `prefix_of` train_loss (res st_m)
    ∧ val_loss (res st_n) `prefix_of` val_loss (res st_m)
    ∧ train_latent_codes (res st_n) `prefix_of` train_latent_codes (res st_m)
    ∧ dict_latent_codes st_m = dict_latent_codes st_n
    ∧ dict_latent_codes st_n
      = (generate_latent_codes init_code (latent_size a) class_keys).2.
Proof.
  revert st_m. induction k as [|k IH]; intros st_m Hrun.
  - rewrite Nat.add_0_r in Hrun. exists st_m.
    split; [exact Hrun|]. do 4 (split; [reflexivity|]).
    revert st_m Hrun. induction n as [|n IHn]; intros st_m Hrun.
    + injection Hrun as <-. apply init_trainer_res.
    + rewrite run_epochs_S in Hrun. apply bind_Ok in Hrun as (st_p & Hp & Hbody).
      apply epoch_body_effect in Hbody as (? & ? & ? & _ & -> & _). now apply IHn.
  - rewrite Nat.add_succ_r, run_epochs_S in Hrun.
    apply bind_Ok in Hrun as (st_p & Hp & Hbody).
    destruct (IH st_p Hp) as (st_n & Hn & Htl & Hvl & Hsn & Hd & Hd0).
    apply epoch_body_effect in Hbody as (avg & avg_val & st1 & _ & Hd' & _ & Hres & _).
    exists st_n. rewrite Hres, Hd'. simpl.
    split; [exact Hn|]. repeat split; try assumption; now apply prefix_app_r.
Qed.


(** X15. On the CPU every entry of the snapshot list is a view of the
    latent-code parameter, so after [n] completed epochs the results file
    holds [n] copies of the current latent codes, not the codes of the
    individual epochs. *)
Theorem run_epochs_cpu_snapshots (a : args) (class_keys : list string) (n : nat)
    (st : trainer) :
  on_cpu = true → run_epochs a class_keys (S n) = Ok st →
  train_latent_codes (res st) = replicate (S n) View
  ∧ ∃ file, disk_results st = Some file
            ∧ file_latent_codes file = replicate (S n) (latent_codes st).
Proof.
  intros Hcpu Hrun.
  assert (∀ m st_m, run_epochs a class_keys m = Ok st_m →
                    train_latent_codes (res st_m) = replicate m View) as Hviews.
  { induction m as [|m IHm]; intros st_m Hm.
    - injection Hm as <-. now rewrite (proj1 (init_trainer_res a class_keys)).
    - rewrite run_epochs_S in Hm. apply bind_Ok in Hm as (st_p & Hp & Hbody).
      apply epoch_body_effect in Hbody as (? & ? & st1 & _ & _ & _ & -> & _).
      simpl. rewrite (IHm st_p Hp), Hcpu. simpl. symmetry. apply replicate_S_end. }
  split; [now apply Hviews|].
  pose proof (Hviews _ _ Hrun) as Hst.
  rewrite run_epochs_S in Hrun. apply bind_Ok in Hrun as (st_p & Hp & Hbody).
  apply epoch_body_effect in Hbody as (? & ? & st1 & _ & _ & _ & _ & Hdisk).
  eexists. split; [exact Hdisk|]. simpl. rewrite Hst, fmap_replicate. reflexivity.
Qed.

(** X16. Off the CPU the snapshots are copies: after [n] completed epochs
    entry [k] of the snapshot list, and of the results file, is the latent
    code matrix as it stood at the end of epoch [k]. *)
Theorem run_epochs_copied_snapshots (a : args) (class_keys : list string) (n k : nat)
    (st : trainer) :
  on_cpu = false → run_epochs a class_keys n = Ok st → k < n →
  ∃ st_k file,
    run_epochs a class_keys (S k) = Ok st_k
    ∧ train_latent_codes (res st) !! k = Some (Copy (latent_codes st_k))
    ∧ disk_results st = Some file
    ∧ file_latent_codes file !! k = Some (latent_codes st_k).
Proof.
  intros Hcpu Hrun Hk.
  assert (∀ m st_m, run_epochs a class_keys m = Ok st_m →
            length (train_latent_codes (res st_m)) = m
            ∧ ∀ j, j < m → ∃ st_j, run_epochs a class_keys (S j) = Ok st_j
                 ∧ train_latent_codes (res st_m) !! j = Some (Copy (latent_codes st_j)))
    as Hcopies.
  { induction m as [|m IHm]; intros st_m Hm.
    - injection Hm as <-. rewrite (proj1 (init_trainer_res a class_keys)).
      split; [reflexivity|]. intros j Hj. inversion Hj.
    - pose proof Hm as Hm'. rewrite run_epochs_S in Hm.
      apply bind_Ok in Hm as (st_p & Hp & Hbody).
      apply epoch_body_effect in Hbody as (? & ? & st1 & _ & _ & Hcodes & Hres & _).
      destruct (IHm st_p Hp) as [Hlen Hprev]. rewrite Hres. simpl.
      split; [rewrite length_app, Hlen; simpl; lia|].
      intros j Hj. destruct (decide (j = m)) as [->|Hne].
      + exists st_m. split; [exact Hm'|].
        rewrite lookup_app_r by lia. rewrite Hlen, Nat.sub_diag, Hcpu, Hcodes.
        reflexivity.
      + destruct (Hprev j ltac:(lia)) as (st_j & Hj' & Hlook).
        exists st_j. split; [exact Hj'|]. rewrite lookup_app_l by lia. exact Hlook. }
  destruct (proj2 (Hcopies _ _ Hrun) k Hk) as (st_k & Hrun_k & Hlook).
  destruct n as [|n]; [inversion Hk|].
  rewrite run_epochs_S in Hrun. apply bind_Ok in Hrun as (st_p & Hp & Hbody).
  apply epoch_body_effect in Hbody as (? & ? & st1 & _ & _ & _ & _ & Hdisk).
  eexists st_k, _. split; [exact Hrun_k|]. split; [exact Hlook|].
  split; [exact Hdisk|]. simpl. rewrite list_lookup_fmap, Hlook. reflexivity.
Qed.

(** The lists of the record after [n] completed epochs, on any device; on the
    CPU every entry of the list of latent codes is a view. *)
Lemma run_epochs_record (a : args) (class_keys : list string) (n : nat) (st : trainer) :
  run_epochs a class_keys n = Ok st →
  length (train_loss (res st)) = n ∧ length (val_loss (res st)) = n
  ∧ length (train_latent_codes (res st)) = n
  ∧ (on_cpu = true → train_latent_codes (res st) = replicate n View).
Proof.
  revert st. induction n as [|n IH]; intros st Hrun.
  - injection Hrun as <-. rewrite (proj1 (init_trainer_res a class_keys)).
    repeat split; reflexivity.
  - rewrite run_epochs_S in Hrun. apply bind_Ok in Hrun as (st_p & Hp & Hbody).
    apply epoch_body_effect in Hbody as (? & ? & st1 & _ & _ & _ & -> & _).
    destruct (IH st_p Hp) as (Htl & Hvl & Hsn & Hview). simpl.
    rewrite !length_app, Htl, Hvl, Hsn. simpl.
    split; [lia|]. split; [lia|]. split; [lia|].
    intros Hcpu. rewrite (Hview Hcpu), Hcpu. simpl. symmetry. apply replicate_S_end.
Qed.

End EpochFacts.

(** One epoch and two epochs of the run on integers. *)
Lemma run_epochs_history_grows_witness :
  ∃ st1 st2, toy_run true 1 = Ok st1 ∧ toy_run true 2 = Ok st2
    ∧ train_loss (res st1) `prefix_of` train_loss (res st2)
    ∧ val_loss (res st1) `prefix_of` val_loss (res st2)
    ∧ dict_latent_codes st2 = dict_latent_codes st1.
Proof.
  destruct (toy_run true 2) as [st2|e] eqn:Hrun.
  - destruct (run_epochs_history_grows 0%Z Z.add Z.sub Z.mul Z.div Z.of_nat toy_backward
                (λ _ _ _ _, 5%Z) toy_model_step (λ epoch, [toy_batch 0 (Z.of_nat epoch)])
                [toy_batch 1 2] true 0%Z toy_init toy_args ["0"; "1"; "2"] 1 1 st2 Hrun)
      as (st1 & H1 & Htl & Hvl & _ & Hd & _).
    exists st1, st2. repeat split; assumption.
  - vm_compute in Hrun. discriminate Hrun.
Defined.


Lemma run_epochs_cpu_snapshots_witness :
  ∃ st file, toy_run true 2 = Ok st ∧ disk_results st = Some file
    ∧ file_latent_codes file = [latent_codes st; latent_codes st].
Proof.
  destruct (toy_run true 2) as [st|e] eqn:Hrun.
  - destruct (run_epochs_cpu_snapshots 0%Z Z.add Z.sub Z.mul Z.div Z.of_nat toy_backward
                (λ _ _ _ _, 5%Z) toy_model_step (λ epoch, [toy_batch 0 (Z.of_nat epoch)])
                [toy_batch 1 2] true 0%Z toy_init toy_args ["0"; "1"; "2"] 1 st
                eq_refl Hrun) as (_ & file & Hdisk & Hfile).
    exists st, file. repeat split; assumption.
  - vm_compute in Hrun. discriminate Hrun.
Defined.

Lemma run_epochs_copied_snapshots_witness :
  ∃ st st_0 file, toy_run false 2 = Ok st ∧ toy_run false 1 = Ok st_0
    ∧ disk_results st = Some file
    ∧ file_latent_codes file !! 0 = Some (latent_codes st_0).
Proof.
  destruct (toy_run false 2) as [st|e] eqn:Hrun.
  - destruct (run_epochs_copied_snapshots 0%Z Z.add Z.sub Z.mul Z.div Z.of_nat toy_backward
                (λ _ _ _ _, 5%Z) toy_model_step (λ epoch, [toy_batch 0 (Z.of_nat epoch)])
                [toy_batch 1 2] false 0%Z toy_init toy_args ["0"; "1"; "2"] 2 0 st
                eq_refl Hrun ltac:(lia)) as (st_0 & file & H0 & _ & Hdisk & Hfile).
    exists st, st_0, file. repeat split; assumption.
  - vm_compute in Hrun. discriminate Hrun.
Defined.

(** C7. After epoch [e] the results record holds [e] training losses, [e]
    validation losses and [e] snapshots of the latent codes.  On the CPU the
    code appends a view of the parameter, not a copy: after [e] epochs all
    [e] entries read the current codes, and the codes of the earlier epochs
    are in neither the record nor the results file.  After two epochs of the
    run on integers both entries are the codes of the second epoch, where
    the first epoch ended with other codes; off the CPU the same run keeps
    both. *)
Theorem snapshots_alias_on_cpu :
  (∀ (F params gparams : Type) (zero : F) (add sub mul div : F → F → F)
     (of_count : nat → F) backward forward_loss
     (model_step : F → params → gparams → params) train_batches val_batches
     (model0 : params) init_code (a : args) (class_keys : list string) (e : nat)
     (st : trainer),
     run_epochs zero add sub mul div of_count backward forward_loss model_step
                train_batches val_batches true model0 init_code a class_keys e = Ok st →
     length (train_loss (res st)) = e ∧ length (val_loss (res st)) = e
     ∧ length (train_latent_codes (res st)) = e
     ∧ read_snapshot st <$> train_latent_codes (res st) = replicate e (latent_codes st))
  ∧ result_map latent_codes (toy_run true 1) = Ok [[-1; -1]; [10; 11]; [20; 21]]%Z
  ∧ result_map (λ st, (read_snapshot st <$> train_latent_codes (res st),
                       file_latent_codes <$> disk_results st))
               (toy_run true 2)
    = Ok ([[[-1; -1]; [-1; -1]; [20; 21]]; [[-1; -1]; [-1; -1]; [20; 21]]]%Z,
          Some [[[-1; -1]; [-1; -1]; [20; 21]]; [[-1; -1]; [-1; -1]; [20; 21]]]%Z)
  ∧ result_map (λ st, read_snapshot st <$> train_latent_codes (res st)) (toy_run false 2)
    = Ok [[[-1; -1]; [10; 11]; [20; 21]]; [[-1; -1]; [-1; -1]; [20; 21]]]%Z.
Proof.
  split; [|repeat split; vm_compute; reflexivity].
  intros F params gparams zero add sub mul div of_count backward forward_loss model_step
    train_batches val_batches model0 init_code a class_keys e st Hrun.
  apply run_epochs_record in Hrun as (Htl & Hvl & Hsn & Hview).
  split; [exact Htl|]. split; [exact Hvl|]. split; [exact Hsn|].
  rewrite (Hview eq_refl), fmap_replicate. reflexivity.
Qed.

(** *** The sizes of the split in [get_loaders] *)

Section Loaders.
Local Open Scope Z_scope.

(** The double nearest to 0.8 is [float_0_8 / 2^53]. *)
Definition float_0_8 : Z := 7205759403792794.

(** [int(0.8 * n)] for a length [n]: the product is rounded to the 53
    significant bits of a double and [int] drops the fraction. *)
Definition int_0_8_times (n : Z) : Z :=
  Z.shiftr (UtilsMesh.f64 (float_0_8 * n)) 53.

(** Lines 72-73 of [get_loaders]: [train_size] and [val_size]. *)
Definition split_lengths (n : Z) : Z * Z :=
  let train_size := int_0_8_times n in
  let val_size := n - train_size in
  (train_size, val_size).

Lemma round_to_prec_nearest prec z :
  1 <= prec → 0 <= z →
  let e := Z.max 0 (Z.log2 z + 1 - prec) in
  ∃ q', UtilsMesh.round_to_prec prec z = q' * 2 ^ e
        ∧ z / 2 ^ e <= q' ∧ 2 * (q' * 2 ^ e) <= 2 * z + 2 ^ e.
Proof.
  intros Hprec Hz e. unfold UtilsMesh.round_to_prec. rewrite (Z.abs_eq z) by assumption.
  destruct (Z.leb_spec (Z.log2 z + 1 - prec) 0) as [He|He].
  - exists z. unfold e. rewrite Z.max_l by assumption.
    rewrite Z.pow_0_r, Z.div_1_r. lia.
  - assert (e = Z.log2 z + 1 - prec) as -> by (unfold e; lia).
    set (e' := Z.log2 z + 1 - prec) in *.
    assert (0 < z) as Hpos.
    { destruct (Z.eq_dec z 0) as [->|]; [|lia]. unfold e' in He. simpl in He. lia. }
    rewrite Z.sgn_pos, Z.mul_1_l by assumption.
    rewrite Z.shiftr_div_pow2, Z.land_ones, !Z.shiftl_mul_pow2, Z.mul_1_l by lia.
    assert (2 ^ e' = 2 * 2 ^ (e' - 1)) as Hpow.
    { rewrite <- Z.pow_succ_r by lia. f_equal. lia. }
    assert (0 < 2 ^ (e' - 1)) as Hhalf by (apply Z.pow_pos_nonneg; lia).
    pose proof (Z.div_mod z (2 ^ e') ltac:(lia)) as Hdm.
    pose proof (Z.mod_pos_bound z (2 ^ e') ltac:(lia)) as Hmod.
    set (q := z / 2 ^ e') in *. set (r := z mod 2 ^ e') in *.
    set (P := 2 ^ e') in *. set (H := 2 ^ (e' - 1)) in *.
    destruct (Z.ltb_spec r H); [exists q; split; [reflexivity|]; nia|].
    destruct (Z.ltb_spec H r); [exists (q + 1); split; [reflexivity|]; nia|].
    destruct (Z.even q); [exists q | exists (q + 1)]; (split; [reflexivity|]; nia).
Qed.

(** X17. For a dataset of fewer than 2^50 samples the double-precision
    product in [get_loaders] loses nothing: the training split has
    floor(8n/10) samples, the validation split the rest, so the two sizes
    add up to the length of the dataset and the training size is the
    largest integer not above four fifths of it. *)
Theorem split_lengths_spec (n : Z) :
  0 <= n < 2 ^ 50 →
  split_lengths n = (train_size n, val_size n)
  ∧ (split_lengths n).1 + (split_lengths n).2 = n
  ∧ 5 * train_size n <= 4 * n < 5 * train_size n + 5.
Proof.
  intros Hn.
  assert (5 * train_size n <= 4 * n < 5 * train_size n + 5) as Hfloor.
  { unfold train_size. pose proof (Z.div_mod (8 * n) 10 ltac:(lia)).
    pose proof (Z.mod_pos_bound (8 * n) 10 ltac:(lia)). lia. }
  split; [|split; [unfold split_lengths; simpl; lia | exact Hfloor]].
  unfold split_lengths, val_size. enough (int_0_8_times n = train_size n) as -> by reflexivity.
  unfold int_0_8_times, UtilsMesh.f64. rewrite Z.shiftr_div_pow2 by lia.
  set (z := float_0_8 * n).
  assert (0 <= z) as Hz by (unfold z, float_0_8; lia).
  destruct (round_to_prec_nearest 53 z ltac:(lia) Hz) as (q' & -> & Hq & Hnear).
  set (t := train_size n) in *.
  assert (10 * z = 8 * n * 2 ^ 53 + 4 * n) as Hz10 by (unfold z, float_0_8; lia).
  assert (Z.max 0 (Z.log2 z + 1 - 53) <= 53 ∧ 2 ^ Z.max 0 (Z.log2 z + 1 - 53) <= 2 * n + 1)
    as [He Hpow].
  { destruct (Z.eq_dec n 0) as [->|Hn0]; [split; [simpl; lia | reflexivity]|].
    assert (0 < z) as Hpos by (unfold z, float_0_8; lia).
    assert (Z.log2 z < 103) as Hlog.
    { apply Z.log2_lt_pow2; [assumption|]. unfold z, float_0_8. lia. }
    split; [lia|].
    destruct (Z.le_gt_cases (Z.log2 z + 1 - 53) 0) as [Hle|Hgt].
    - rewrite Z.max_l by assumption. simpl. lia.
    - rewrite Z.max_r by lia.
      pose proof (Z.log2_spec z Hpos) as [Hlow _].
      replace (Z.log2 z) with ((Z.log2 z + 1 - 53) + 52) in Hlow by lia.
      rewrite Z.pow_add_r in Hlow by lia.
      assert (z < n * 2 ^ 53) by (unfold z, float_0_8; lia). lia. }
  set (e := Z.max 0 (Z.log2 z + 1 - 53)) in *.
  assert (0 <= e) as He0 by (unfold e; lia).
  assert (2 ^ 53 = 2 ^ (53 - e) * 2 ^ e) as Hsplit.
  { rewrite <- Z.pow_add_r by lia. f_equal. lia. }
  assert (0 < 2 ^ e) as Hpe by (apply Z.pow_pos_nonneg; lia).
  assert (0 < 2 ^ (53 - e)) as Hpm by (apply Z.pow_pos_nonneg; lia).
  symmetry. apply Z.div_unique_pos with (r := q' * 2 ^ e - t * 2 ^ 53); [|lia].
  split.
  - assert (t * 2 ^ (53 - e) <= z / 2 ^ e).
    { apply Z.div_le_lower_bound; [assumption|]. nia. }
    nia.
  - nia.
Qed.

(** Twenty samples: sixteen for training, four for validation. *)
Lemma split_lengths_spec_witness : split_lengths 20 = (16, 4).
Proof. apply (split_lengths_spec 20). lia. Defined.

End Loaders.

End Train.

(** ** scripts/test_infershape_adam_lbfgs.py *)
Module Infer.

(** A finite float is modelled by the rational it denotes; comparisons are
    those of the rationals. *)
Definition Qltb (x y : Q) : bool := negb (Qle_bool y x).

#[export] Instance Q_eq_dec : EqDecision Q.
Proof. solve_decision. Defined.

(** *** Random generators

    A generator is a tape of draws and a position on it.  numpy's generator
    draws integers, torch's draws standard normal values. *)
Record np_random : Type := NpRandom { np_tape : nat → nat; np_pos : nat }.
Record torch_random : Type := TorchRandom { normal_tape : nat → Q; normal_pos : nat }.

(** [np.random.randint(low, high)] *)
Definition randint (low high : Z) (g : np_random) : result (Z * np_random) :=
  if (low <? high)%Z
  then Ok ((low + Z.of_nat (np_tape g (np_pos g)) mod (high - low))%Z,
           NpRandom (np_tape g) (S (np_pos g)))
  else Raise ValueError.

(** [np.random.choice(np.arange(0, n))] *)
Definition choice_arange (n : nat) (g : np_random) : result (nat * np_random) :=
  match n with
  | O => Raise ValueError
  | S _ => Ok (np_tape g (np_pos g) mod n, NpRandom (np_tape g) (S (np_pos g)))
  end.

(** [torch.normal(mean, std, size=(1, n))] *)
Definition torch_normal (mean std : Q) (n : Z) (g : torch_random)
    : result (list (list Q) * torch_random) :=
  if (n <? 0)%Z then Raise RuntimeError
  else Ok ([(λ k, (mean + std * normal_tape g (normal_pos g + k))%Q) <$> seq 0 (Z.to_nat n)],
           TorchRandom (normal_tape g) (normal_pos g + Z.to_nat n)).

(** *** [initialise_latent_code] *)

(** The results record of a training run, as loaded from [results.npy]. *)
Definition results_dict : Type := @Train.results_file Q.

Definition initialise_latent_code (latent_size : Z) (results : results_dict)
    (g : torch_random) : result (list (list Q) * torch_random) :=
  let* r := torch_normal 0 0.01 latent_size g in
  let latent_code := r.1 in
  Ok (latent_code, r.2).

(** *** [get_data] *)

Definition point : Type := Q * Q * Q.

(** The row-wise comparison of an (n, 3) array with a point, and [row.all()]. *)
Definition point_le (p q : point) : bool * bool * bool :=
  let '(p0, p1, p2) := p in
  let '(q0, q1, q2) := q in
  (Qle_bool p0 q0, Qle_bool p1 q1, Qle_bool p2 q2).

Definition row_and (a b : bool * bool * bool) : bool * bool * bool :=
  let '(a0, a1, a2) := a in
  let '(b0, b1, b2) := b in
  (a0 && b0, a1 && b1, a2 && b2).

Definition row_all (a : bool * bool * bool) : bool :=
  let '(a0, a1, a2) := a in a0 && a1 && a2.

Section FloatSums.
(** [x + d] and [x - d] for an entry [x] of the coordinate array and a Python
    scalar [d], in the floating-point type of the array: the scalar is cast
    to that type and the sum is rounded. *)
Context (fadd fsub : Q → Q → Q).

(** [p + d] and [p - d] for a scalar [d]. *)
Definition point_add (p : point) (d : Q) : point :=
  let '(p0, p1, p2) := p in (fadd p0 d, fadd p1 d, fadd p2 d).
Definition point_sub (p : point) (d : Q) : point :=
  let '(p0, p1, p2) := p in (fsub p0 d, fsub p1 d, fsub p2 d).

(** [a[mask]] for a boolean mask along the first axis. *)
Definition mask_select {A} (mask : list bool) (a : list A) : list A :=
  snd <$> filter (λ bx, fst bx = true) (zip mask a).

(** Lines 46-50: the object of the run. *)
Definition select_object (objs : list string) (index_objs_dict : Z) (g : np_random)
    : result (string * np_random) :=
  if bool_decide (index_objs_dict ≠ (-1)%Z) && (index_objs_dict <? Z.of_nat (length objs))%Z
  then let* random_obj := py_index objs index_objs_dict in Ok (random_obj, g)
  else let* r := randint 0 (Z.of_nat (length objs)) g in
       let* random_obj := py_index objs r.1 in
       Ok (random_obj, r.2).

(** Lines 57-58: the samples next to the surface. *)
Definition near_surface_mask (sdf_temp : list Q) : list bool :=
  (λ s, Qltb s 0.001 && Qltb (-0.001) s) <$> sdf_temp.

(** Lines 73-75: the mask of the touch centred at [centre]. *)
Definition in_cube (centre p : point) : bool :=
  let upper_bound := point_add centre 0.06 in
  let lower_bound := point_sub centre 0.06 in
  row_all (row_and (point_le p upper_bound) (point_le lower_bound p)).

Definition touch_condition (coords_array : list point) (centre : point) : list bool :=
  in_cube centre <$> coords_array.

(** The body of the loop of lines 67-77. *)
Definition touch_step (coords_array : list point) (sdf_gt_array : list Q)
    (acc : list point * list Q * np_random) (_ : nat)
    : result (list point * list Q * np_random) :=
  let '(voxel_coords_all, voxel_sdf_all, g) := acc in
  let* r := choice_arange (length coords_array) g in
  let* centre := py_index coords_array (Z.of_nat r.1) in
  let condition := touch_condition coords_array centre in
  Ok (voxel_coords_all ++ mask_select condition coords_array,
      voxel_sdf_all ++ mask_select condition sdf_gt_array,
      r.2).

(** Lines 61-81: the simulated touches. *)
Definition simulate_touches (touches : Z) (coords_array : list point)
    (sdf_gt_array : list Q) (g : np_random)
    : result (list point * list Q * np_random) :=
  if (0 <? touches)%Z
  then foldM (touch_step coords_array sdf_gt_array) ([], [], g)
             (seq 0 (Z.to_nat touches))
  else Ok (coords_array, sdf_gt_array, g).

End FloatSums.

(** [torch.clamp(x, -v, v)]: the larger of [x] and [-v], then the smaller of
    that and [v]. *)
Definition clamp (v x : Q) : Q :=
  let y := if Qltb x (- v) then (- v)%Q else x in
  if Qltb v y then v else y.

(** *** The settings object

    [args] is a Python object; reading an attribute that it does not have
    raises.  [parse_args] builds the namespace of the script's parser: one
    attribute for each declared option, with the value given on the command
    line or the default. *)
#[warnings="-register-all"]
Inductive value : Type :=
  | VInt (z : Z)
  | VFloat (q : Q)
  | VBool (b : bool)
  | VStr (s : string)
  | VObj (attrs : list (string * value)).

Fixpoint lookup_attr (attrs : list (string * value)) (name : string) : option value :=
  match attrs with
  | [] => None
  | (k, v) :: attrs' => if bool_decide (k = name) then Some v else lookup_attr attrs' name
  end.

Definition getattr (o : value) (name : string) : result value :=
  match o with
  | VObj attrs =>
      match lookup_attr attrs name with
      | Some v => Ok v
      | None => Raise (AttributeError name)
      end
  | _ => Raise (AttributeError name)
  end.

Fixpoint update_attr (attrs : list (string * value)) (name : string) (v : value)
    : list (string * value) :=
  match attrs with
  | [] => [(name, v)]
  | (k, w) :: attrs' =>
      if bool_decide (k = name) then (k, v) :: attrs'
      else (k, w) :: update_attr attrs' name v
  end.

Definition setattr (o : value) (name : string) (v : value) : result value :=
  match o with
  | VObj attrs => Ok (VObj (update_attr attrs name v))
  | _ => Raise (AttributeError name)
  end.

Definition as_num (v : value) : result Q :=
  match v with
  | VInt z => Ok (inject_Z z)
  | VFloat q => Ok q
  | VBool b => Ok (if b then 1 else 0)%Q
  | _ => Raise TypeError
  end.

Definition as_int (v : value) : result Z :=
  match v with
  | VInt z => Ok z
  | VBool b => Ok (if b then 1 else 0)%Z
  | _ => Raise TypeError
  end.

Definition truthy (v : value) : bool :=
  match v with
  | VInt z => negb (z =? 0)%Z
  | VFloat q => negb (Qeq_bool q 0)
  | VBool b => b
  | VStr s => negb (bool_decide (s = ""))
  | VObj _ => true
  end.

Definition attr_num (o : value) (name : string) : result Q :=
  let* v := getattr o name in as_num v.
Definition attr_int (o : value) (name : string) : result Z :=
  let* v := getattr o name in as_int v.

Definition parser_defaults : list (string * value) :=
  [("folder", VStr ""); ("latent_size", VInt 128); ("lr", VFloat 0.001);
   ("epochs", VInt 3000); ("sigma_regulariser", VFloat 0.01);
   ("lr_multiplier", VFloat 0.5); ("patience", VInt 20);
   ("lr_scheduler", VBool false); ("num_layers", VInt 8);
   ("no_skip_connections", VBool false); ("num_samples", VInt 5000);
   ("index_objs_dict", VInt (-1)); ("resolution", VInt 50);
   ("clamp", VBool false); ("clamp_value", VFloat 0.1); ("touches", VInt 0);
   ("langevin_noise", VInt 0); ("optimiser", VStr "Adam");
   ("LBFGS_maxiter", VInt 20)].

Definition parse_args (given : list (string * value)) : value :=
  VObj ((λ kd, (kd.1, default kd.2 (lookup_attr given kd.1))) <$> parser_defaults).

Section GetData.
(** The float sums of the coordinate array, the two dictionaries of the
    results package (the mesh of an object is opaque) and the external
    sampler [sample_sdf_near_surface]. *)
Context (fadd fsub : Q → Q → Q).
Context {mesh : Type}.
Context (objs_dict : list (string * mesh)) (samples_dict : list (string * unit)).
Context (sample_sdf_near_surface : mesh → Z → list point * list Q).

(** [d[key]] for a dictionary. *)
Fixpoint dict_get {V} (d : list (string * V)) (key : string) : result V :=
  match d with
  | [] => Raise (KeyError key)
  | (k, v) :: d' => if bool_decide (k = key) then Ok v else dict_get d' key
  end.

Definition get_data (args : value) (g : np_random)
    : result (list point * list Q * np_random) :=
  let objs := fst <$> samples_dict in
  let* index_objs_dict := attr_int args "index_objs_dict" in
  let* sel := select_object objs index_objs_dict g in
  let* mesh_dict := dict_get objs_dict sel.1 in
  let* num_samples := attr_int args "num_samples" in
  let '(coords_temp, sdf_temp) := sample_sdf_near_surface mesh_dict num_samples in
  let coords_array := mask_select (near_surface_mask sdf_temp) coords_temp in
  let sdf_gt_array := mask_select (near_surface_mask sdf_temp) sdf_temp in
  let* touches := attr_int args "touches" in
  let* t := simulate_touches fadd fsub touches coords_array sdf_gt_array sel.2 in
  let '(coords, sdf_gt, g') := t in
  let* clamp_on := getattr args "clamp" in
  let* sdf_gt :=
    if truthy clamp_on
    then let* clamp_value := attr_num args "clamp_value" in
         Ok (clamp clamp_value <$> sdf_gt)
    else Ok sdf_gt in
  Ok (coords, sdf_gt, g').

End GetData.

(** *** [main] *)

Definition latent : Type := list (list Q).

(** What the loss of an epoch reads from the settings. *)
Record loss_settings : Type := LossSettings {
  clamp_at : option Q;
  latent_width : Z;
  sigma_regulariser : Q
}.

Definition read_loss_settings (args : value) : result loss_settings :=
  let* clamp_on := getattr args "clamp" in
  let* clamp_at :=
    if truthy clamp_on
    then let* v := attr_num args "clamp_value" in Ok (Some v)
    else Ok None in
  let* latent_size := attr_int args "latent_size" in
  let* sigma := attr_num args "sigma_regulariser" in
  Ok (LossSettings clamp_at latent_size sigma).

(** Line 151: [args.args.lr > args.lr * (args.lr_multiplier)**5]. *)
Definition adam_phase (args : value) : result bool :=
  let* inner := getattr args "args" in
  let* lr_left := getattr inner "lr" in
  let* lr_right := getattr args "lr" in
  let* multiplier := getattr args "lr_multiplier" in
  let* m := as_num multiplier in
  let* r := as_num lr_right in
  let* l := as_num lr_left in
  Ok (Qltb (r * m ^ 5) l).

Section Main.
(** The decoder with its loaded weights, the two optimisers and the scheduler
    are external: [optim] is their state. *)
Context (fadd fsub : Q → Q → Q).
Context {mesh optim : Type}.
Context (objs_dict : list (string * mesh)) (samples_dict : list (string * unit)).
Context (sample_sdf_near_surface : mesh → Z → list point * list Q).
Context (results : results_dict).
(** [torch.optim.Adam([latent_code], lr)] and [torch.optim.LBFGS([latent_code],
    lr=0.0001, max_iter)], and the scheduler attached to the first. *)
Context (make_optimisers : Q → Z → optim).
Context (attach_scheduler : optim → Q → Z → optim).
(** An epoch of the adaptive phase (lines 153-168) and of the quasi-Newton
    phase (lines 174-189), from the state of the optimisers, the latent code,
    the data, the settings of the loss (and the Langevin noise): the new state
    and code, and [loss_value]. *)
Context (adam_epoch : optim → latent → list point * list Q → loss_settings → Q
                      → optim * latent * Q).
Context (lbfgs_epoch : optim → latent → list point * list Q → loss_settings
                       → optim * latent * Q).
(** [scheduler_latent.step(loss_value.item())] *)
Context (scheduler_step : optim → Q → optim).

Record loop_state : Type := LoopState {
  st_args : value;
  st_optim : optim;
  latent_code : latent;
  best_loss : Q;
  best_latent_code : option latent;
  training_loss : list Q
}.

(** The body of the loop of lines 146-206. *)
Definition epoch_body (data : list point * list Q) (st : loop_state) (epoch : nat)
    : result loop_state :=
  let args := st_args st in
  let* adam := adam_phase args in
  let* r :=
    if adam
    then
      let* settings := read_loss_settings args in
      let* langevin_noise := attr_num args "langevin_noise" in
      let '(o, code, loss_value) :=
        adam_epoch (st_optim st) (latent_code st) data settings langevin_noise in
      Ok (args, o, code, loss_value)
    else
      let* args := setattr args "lr_scheduler" (VBool false) in
      let* settings := read_loss_settings args in
      let '(o, code, loss_value) :=
        lbfgs_epoch (st_optim st) (latent_code st) data settings in
      Ok (args, o, code, loss_value) in
  let '(args, o, code, loss_value) := r in
  let '(best_loss, best_latent_code) :=
    if Qltb loss_value (best_loss st)
    then (loss_value, Some code)
    else (best_loss st, best_latent_code st) in
  let* lr_scheduler := getattr args "lr_scheduler" in
  let o := if truthy lr_scheduler then scheduler_step o loss_value else o in
  Ok (LoopState args o code best_loss best_latent_code (training_loss st ++ [loss_value])).

(** Lines 107-206: the run up to the end of the loop, from the settings that
    it reads, the initial code, the optimisers and the data.  The log of the
    settings (lines 110-117), the files of the decoder and the checks that
    the constructors of the optimisers make on their arguments are outside
    the model. *)
Definition run_loop (args : value) (g_np : np_random) (g_torch : torch_random)
    : result loop_state :=
  let* folder := getattr args "folder" in
  let* latent_size := attr_int args "latent_size" in
  let* code := initialise_latent_code latent_size results g_torch in
  let* lr := attr_num args "lr" in
  let* maxiter := attr_int args "LBFGS_maxiter" in
  let o := make_optimisers lr maxiter in
  let* lr_scheduler := getattr args "lr_scheduler" in
  let* o :=
    if truthy lr_scheduler
    then let* multiplier := attr_num args "lr_multiplier" in
         let* patience := attr_int args "patience" in
         Ok (attach_scheduler o multiplier patience)
    else Ok o in
  let* data :=
    get_data fadd fsub objs_dict samples_dict sample_sdf_near_surface args g_np in
  let best_loss := 1000000%Q in
  let* epochs := attr_int args "epochs" in
  foldM (epoch_body (data.1.1, data.1.2))
        (LoopState args o code.1 best_loss None [])
        (seq 0 (Z.to_nat epochs)).

(** [main]: the content of [latent_code.pt] after the run, if the file was
    written, and how the run ended. *)
Definition main (args : value) (g_np : np_random) (g_torch : torch_random)
    : option latent * result unit :=
  match run_loop args g_np g_torch with
  | Raise e => (None, Raise e)
  | Ok st =>
      match best_latent_code st with
      | None => (None, Raise (UnboundLocalError "best_latent_code"))
      | Some code =>
          (Some code, let* resolution := attr_int (st_args st) "resolution" in Ok ())
      end
  end.

End Main.

(** *** Facts about the data acquisition *)

Lemma Qltb_lt (x y : Q) : Qltb x y = true ↔ (x < y)%Q.
Proof.
  unfold Qltb. rewrite negb_true_iff, <- not_true_iff_false, Qle_bool_iff.
  split; [apply Qnot_le_lt | apply Qlt_not_le].
Qed.

Lemma py_index_nat {A} (t : list A) (i : nat) (d : A) :
  i < length t → py_index t (Z.of_nat i) = Ok (nth i t d).
Proof.
  intros Hi. unfold py_index.
  destruct (Z.ltb_spec (Z.of_nat i) 0); [lia|].
  destruct (Z.leb_spec 0 (Z.of_nat i)); [|lia].
  destruct (Z.ltb_spec (Z.of_nat i) (Z.of_nat (length t))); [|lia].
  simpl. rewrite Nat2Z.id.
  destruct (nth_lookup_or_length t i d) as [->|]; [reflexivity | lia].
Qed.

(** Selecting two arrays by the mask of a test on the second selects the
    pairs that pass the test. *)
Lemma mask_select_zip {A B} (f : B → bool) (a : list A) (b : list B) :
  zip (mask_select (f <$> b) a) (mask_select (f <$> b) b)
  = filter (λ ab, f ab.2 = true) (zip a b).
Proof.
  unfold mask_select. revert a. induction b as [|y b IH]; intros [|x a]; try reflexivity.
  csimpl. rewrite !filter_cons. csimpl.
  destruct (decide (f y = true)) as [Hy|Hy]; csimpl; [f_equal|]; apply IH.
Qed.


(** The pairs that the filter of lines 57-58 keeps: those whose distance
    lies strictly inside (−0.001, 0.001). *)
Lemma near_surface_pairs (coords_temp : list point) (sdf_temp : list Q) (p : point) (s : Q) :
  (p, s) ∈ zip (mask_select (near_surface_mask sdf_temp) coords_temp)
               (mask_select (near_surface_mask sdf_temp) sdf_temp)
  ↔ (p, s) ∈ zip coords_temp sdf_temp ∧ (-0.001 < s)%Q ∧ (s < 0.001)%Q.
Proof.
  unfold near_surface_mask.
  rewrite mask_select_zip, list_elem_of_filter. simpl.
  rewrite andb_true_iff, !Qltb_lt. tauto.
Qed.











(** X22. With [touches > 0] and no retained point there is no centre to
    draw: the simulation of the touches raises [ValueError]. *)
Lemma simulate_touches_empty (fadd fsub : Q → Q → Q) (touches : Z) (sdf_gt_array : list Q)
    (g : np_random) :
  (0 < touches)%Z → simulate_touches fadd fsub touches [] sdf_gt_array g = Raise ValueError.
Proof.
  intros Hpos. unfold simulate_touches. destruct (Z.ltb_spec 0 touches); [|lia].
  destruct (Z.to_nat touches) as [|n] eqn:Hn; [lia | reflexivity].
Qed.

(** X23. An index from 0 up to the number of objects selects the object at
    that position, and no random number is drawn. *)
Lemma select_object_valid (objs : list string) (i : Z) (g : np_random) :
  (0 <= i < Z.of_nat (length objs))%Z →
  select_object objs i g = Ok (nth (Z.to_nat i) objs "", g).
Proof.
  intros Hi. unfold select_object.
  rewrite bool_decide_true by lia.
  destruct (Z.ltb_spec i (Z.of_nat (length objs))); [|lia]. simpl.
  rewrite <- (Z2Nat.id i) at 1 by lia.
  rewrite (py_index_nat _ _ "") by lia. reflexivity.
Qed.

(** X24. With at least one object, the index −1 and every index at or past
    the number of objects select the object at the position drawn by
    [np.random.randint(0, len(objs))], and one random number is consumed. *)
Lemma select_object_random (objs : list string) (i : Z) (g : np_random) :
  objs ≠ [] → i = (-1)%Z ∨ (Z.of_nat (length objs) <= i)%Z →
  select_object objs i g
  = Ok (nth (np_tape g (np_pos g) mod length objs) objs "",
        NpRandom (np_tape g) (S (np_pos g))).
Proof.
  intros Hne Hi. unfold select_object.
  assert (length objs ≠ 0) as Hlen by now destruct objs.
  assert (bool_decide (i ≠ (-1)%Z) && (i <? Z.of_nat (length objs))%Z = false) as ->.
  { destruct Hi as [->|Hi]; [reflexivity|].
    destruct (Z.ltb_spec i (Z.of_nat (length objs))); [lia|]. apply andb_false_r. }
  unfold randint. destruct (Z.ltb_spec 0 (Z.of_nat (length objs))); [|lia].
  rewrite bind_Ok_l. cbn [fst snd].
  rewrite Z.add_0_l, Z.sub_0_r, <- Nat2Z.inj_mod.
  rewrite (py_index_nat _ _ "") by now apply Nat.mod_upper_bound.
  reflexivity.
Qed.

(** C3. An object index that is out of range for the object list selects the
    object at random.  The guard of the code lets the negative indices other
    than −1 through to the list: with three objects the index −5 raises and
    the index −2 selects the second object, without a draw. *)
Theorem select_object_negative_index (g : np_random) :
  select_object ["a"; "b"; "c"] (-5) g = Raise IndexError
  ∧ select_object ["a"; "b"; "c"] (-2) g = Ok ("b", g).
Proof. split; reflexivity. Qed.

(** C9. The latent code that the inference script starts from depends on the
    latent size and on the draw only, not on the results record of the
    training run: it is the row of [latent_size] independent draws of mean 0
    and standard deviation 0.01. *)
Theorem initialise_latent_code_ignores_results (latent_size : Z) (r1 r2 : results_dict)
    (g : torch_random) :
  initialise_latent_code latent_size r1 g = initialise_latent_code latent_size r2 g
  ∧ initialise_latent_code latent_size r1 g
    = if (latent_size <? 0)%Z then Raise RuntimeError
      else Ok ([(λ k, (0 + 0.01 * normal_tape g (normal_pos g + k))%Q)
                <$> seq 0 (Z.to_nat latent_size)],
               TorchRandom (normal_tape g) (normal_pos g + Z.to_nat latent_size)).
Proof.
  split; [reflexivity|].
  unfold initialise_latent_code, torch_normal.
  destruct (latent_size <? 0)%Z; reflexivity.
Qed.

(** A results record whose codes are far from a draw: the initial code is the
    same as for the empty record. *)
Example initialise_latent_code_run :
  initialise_latent_code 2 (Train.ResultsFile [1%Q] [[[5; 5]%Q]] [1%Q])
                         (TorchRandom (λ k, inject_Z (Z.of_nat k)) 3)
  = Ok ([[0 + 0.01 * 3; 0 + 0.01 * 4]%Q], TorchRandom (λ k, inject_Z (Z.of_nat k)) 5).
Proof. reflexivity. Qed.

(** *** The sums of binary32

    The arrays of the sampler are float32: the Standard Library's
    specification of IEEE 754 at precision 24, on floats given by the
    rationals they denote.  The conversion is exact on a float32 and rounds a
    scalar such as 0.06 to the nearest float32. *)
Definition b32_of_Q (q : Q) : SpecFloat.spec_float :=
  SpecFloat.SFdiv 24 128 (SpecFloat.binary_normalize 24 128 (Qnum q) 0 false)
                         (SpecFloat.binary_normalize 24 128 (Z.pos (Qden q)) 0 false).

Definition b32_to_Q (x : SpecFloat.spec_float) : Q :=
  match x with
  | SpecFloat.S754_finite s m e =>
      Qred (inject_Z (if s then Z.neg m else Z.pos m) * Qpower 2 e)
  | _ => 0%Q
  end.

Definition f32_add (x d : Q) : Q :=
  b32_to_Q (SpecFloat.SFadd 24 128 (b32_of_Q x) (b32_of_Q d)).
Definition f32_sub (x d : Q) : Q :=
  b32_to_Q (SpecFloat.SFsub 24 128 (b32_of_Q x) (b32_of_Q d)).

(** Around the centre 0.5 the upper bound of the cube is the float32 next to
    0.56, which is above 0.56: the point at that float is in the cube of the
    code, and would not be in a cube of exact bounds. *)
Example in_cube_binary32 :
  f32_add 0.5 0.06 = (9395241 # 16777216)%Q
  ∧ in_cube f32_add f32_sub (0.5, 0, 0)%Q (9395241 # 16777216, 0, 0)%Q = true
  ∧ in_cube Qplus Qminus (0.5, 0, 0)%Q (9395241 # 16777216, 0, 0)%Q = false.
Proof. repeat split; vm_compute; reflexivity. Qed.

(** [get_data] on one object whose sampler returns the five signed distances
    of the specification: with the default settings the three samples next to
    the surface are returned; with two touches, those in the cubes of the two
    centres drawn. *)
Definition five_samples : list point * list Q :=
  ([(0, 0, 0); (0.01, 0, 0); (0.02, 0, 0); (0.5, 0, 0); (0.6, 0, 0)]%Q,
   [-0.01; -0.0005; 0; 0.0005; 0.01]%Q).

Example get_data_near_surface :
  get_data f32_add f32_sub [("mug", ())] [("mug", ())] (λ _ _, five_samples) (parse_args [])
           (NpRandom (λ k, k) 0)
  = Ok ([(0.01, 0, 0); (0.02, 0, 0); (0.5, 0, 0)]%Q, [-0.0005; 0; 0.0005]%Q,
        NpRandom (λ k, k) 1).
Proof. vm_compute. reflexivity. Qed.

Example get_data_two_touches :
  get_data f32_add f32_sub [("mug", ())] [("mug", ())] (λ _ _, five_samples)
           (parse_args [("touches", VInt 2); ("index_objs_dict", VInt 0)])
           (NpRandom (λ k, k) 0)
  = Ok ([(0.01, 0, 0); (0.02, 0, 0); (0.01, 0, 0); (0.02, 0, 0)]%Q,
        [-0.0005; 0; -0.0005; 0]%Q, NpRandom (λ k, k) 2).
Proof. vm_compute. reflexivity. Qed.

(** *** Facts about the optimisation loop *)

(** The namespace of the parser has no attribute [args]: the test of line 151
    raises, whatever was given on the command line. *)
Lemma adam_phase_parse_args (given : list (string * value)) :
  adam_phase (parse_args given) = Raise (AttributeError "args").
Proof. reflexivity. Qed.

Section MainFacts.
Context (fadd fsub : Q → Q → Q).
Context {mesh optim : Type}.
Context (objs_dict : list (string * mesh)) (samples_dict : list (string * unit)).
Context (sample_sdf_near_surface : mesh → Z → list point * list Q).
Context (results : results_dict).
Context (make_optimisers : Q → Z → optim).
Context (attach_scheduler : optim → Q → Z → optim).
Context (adam_epoch : optim → latent → list point * list Q → loss_settings → Q
                      → optim * latent * Q).
Context (lbfgs_epoch : optim → latent → list point * list Q → loss_settings
                       → optim * latent * Q).
Context (scheduler_step : optim → Q → optim).

Abbreviation epoch_body := (epoch_body adam_epoch lbfgs_epoch scheduler_step).
Abbreviation run_loop :=
  (run_loop fadd fsub objs_dict samples_dict sample_sdf_near_surface results make_optimisers
            attach_scheduler adam_epoch lbfgs_epoch scheduler_step).
Abbreviation main :=
  (main fadd fsub objs_dict samples_dict sample_sdf_near_surface results make_optimisers
        attach_scheduler adam_epoch lbfgs_epoch scheduler_step).

Lemma epoch_body_parse_args given data o code bl blc tl (epoch : nat) :
  epoch_body data (LoopState (parse_args given) o code bl blc tl) epoch
  = Raise (AttributeError "args").
Proof. reflexivity. Qed.

(** What the loop keeps true of the best code: it is unassigned as long as no
    loss was below the sentinel, and assigned once one was. *)
Definition tracked (st : @loop_state optim) : Prop :=
  (best_latent_code st = None ∧ best_loss st = 1000000%Q
   ∧ ∀ l, l ∈ training_loss st → (1000000 <= l)%Q)
  ∨ (∃ code l, best_latent_code st = Some code ∧ l ∈ training_loss st ∧ (l < 1000000)%Q).

Lemma epoch_body_tracked data (st st' : loop_state) (epoch : nat) :
  tracked st → epoch_body data st epoch = Ok st' →
  tracked st' ∧ length (training_loss st') = S (length (training_loss st)).
Proof.
  intros Htr Hrun. unfold Infer.epoch_body in Hrun.
  apply bind_Ok in Hrun as (adam & _ & Hrun).
  apply bind_Ok in Hrun as ([[[args o] code] loss_value] & _ & Hrun).
  destruct (Qltb loss_value (best_loss st)) eqn:Hlt;
    apply bind_Ok in Hrun as (sched & _ & Hrun); injection Hrun as <-; simpl;
    (split; [|rewrite length_app; simpl; lia]).
  - right. destruct Htr as [(_ & Hbest & _)|(c & l & _ & Hl & Hlt')].
    + exists code, loss_value. split; [reflexivity|]. split; [set_solver|].
      rewrite Hbest in Hlt. now apply Qltb_lt.
    + exists code, l. split; [reflexivity|]. split; [set_solver | assumption].
  - destruct Htr as [(Hnone & Hbest & Hall)|(c & l & Hsome & Hl & Hlt')].
    + left. split; [assumption|]. split; [assumption|].
      intros l Hl. apply elem_of_app in Hl as [Hl|Hl]; [now apply Hall|].
      apply list_elem_of_singleton in Hl as ->.
      apply Qnot_lt_le. rewrite <- Qltb_lt, <- Hbest, Hlt. discriminate.
    + right. exists c, l. split; [assumption|]. split; [set_solver | assumption].
Qed.

Lemma loop_tracked data (l : list nat) (st st' : loop_state) :
  tracked st → foldM (epoch_body data) st l = Ok st' →
  tracked st' ∧ length (training_loss st') = length (training_loss st) + length l.
Proof.
  revert st. induction l as [|epoch l IH]; intros st Htr Hrun.
  - injection Hrun as <-. split; [assumption | simpl; lia].
  - simpl in Hrun. apply bind_Ok in Hrun as (st1 & Hbody & Hrun).
    destruct (epoch_body_tracked _ _ _ _ Htr Hbody) as [Htr1 Hlen1].
    destruct (IH _ Htr1 Hrun) as [Htr' Hlen']. split; [assumption | simpl; lia].
Qed.

Lemma run_loop_tracked args g_np g_torch (st : loop_state) :
  run_loop args g_np g_torch = Ok st →
  tracked st
  ∧ ∃ epochs, attr_int args "epochs" = Ok epochs
              ∧ length (training_loss st) = Z.to_nat epochs.
Proof.
  intros Hrun. unfold Infer.run_loop in Hrun.
  do 8 (apply bind_Ok in Hrun as (? & _ & Hrun)).
  apply bind_Ok in Hrun as (epochs & Hepochs & Hrun).
  apply loop_tracked in Hrun as [Htr Hlen].
  - split; [assumption|]. exists epochs. split; [assumption|].
    rewrite Hlen, length_seq. reflexivity.
  - left. split; [reflexivity|]. split; [reflexivity|]. intros l Hl. inversion Hl.
Qed.

(** C10. The best latent code is assigned only when the loss of some epoch
    is strictly below the sentinel 1,000,000.  With no epoch, or with every
    loss at or above the sentinel, the save after the loop reads a variable
    that was never assigned and fails: [latent_code.pt] is written only when
    the loss of some epoch was below the sentinel. *)
Theorem best_latent_code_saved args g_np g_torch :
  (∀ code, (main args g_np g_torch).1 = Some code →
     ∃ st l, run_loop args g_np g_torch = Ok st
             ∧ best_latent_code st = Some code
             ∧ l ∈ training_loss st ∧ (l < 1000000)%Q)
  ∧ (∀ st, run_loop args g_np g_torch = Ok st →
       (∀ l, l ∈ training_loss st → (1000000 <= l)%Q) →
       main args g_np g_torch = (None, Raise (UnboundLocalError "best_latent_code")))
  ∧ (∀ st epochs, run_loop args g_np g_torch = Ok st →
       attr_int args "epochs" = Ok epochs →
       length (training_loss st) = Z.to_nat epochs)
  ∧ (∀ e, run_loop args g_np g_torch = Raise e →
       main args g_np g_torch = (None, Raise e)).
Proof.
  unfold Infer.main.
  destruct (run_loop args g_np g_torch) as [st|e] eqn:Hrun.
  - destruct (run_loop_tracked _ _ _ _ Hrun) as [Htr (epochs & Hepochs & Hlen)].
    split; [|split; [|split]].
    + intros code Hcode.
      destruct Htr as [(Hnone & _)|(c & l & Hsome & Hl & Hlt)].
      * rewrite Hnone in Hcode. discriminate.
      * rewrite Hsome in Hcode. injection Hcode as <-. eauto 6.
    + intros st' Hst' Hall. injection Hst' as <-.
      destruct Htr as [(Hnone & _)|(c & l & Hsome & Hl & Hlt)].
      * now rewrite Hnone.
      * exfalso. eapply Qlt_not_le; [exact Hlt | now apply Hall].
    + intros st' epochs' Hst' Hepochs'. injection Hst' as <-. congruence.
    + intros e He. discriminate.
  - split; [|split; [|split]]; try discriminate.
    intros e' He'. now injection He' as <-.
Qed.

End MainFacts.

(** *** Runs of [main] on one object

    The optimiser state counts the epochs; the adaptive phase reports the
    losses of [adam_losses] in turn and adds 1 to the code, the quasi-Newton
    phase reports the loss 7. *)
Definition toy_adam (adam_losses : list Q) (o : nat) (code : latent)
    (data : list point * list Q) (settings : loss_settings) (noise : Q)
    : nat * latent * Q :=
  (S o, (λ row : list Q, (λ x, Qred (x + 1)) <$> row) <$> code, nth o adam_losses 0%Q).

Definition toy_lbfgs (o : nat) (code : latent) (data : list point * list Q)
    (settings : loss_settings) : nat * latent * Q :=
  (S o, code, 7%Q).

Definition toy_main (adam_losses : list Q) (args : value) : option latent * result unit :=
  main f32_add f32_sub [("mug", ())] [("mug", ())] (λ _ _, ([(0, 0, 0)%Q], [0%Q]))
       (Train.ResultsFile [] [] []) (λ _ _, 0) (λ o _ _, o)
       (toy_adam adam_losses) toy_lbfgs (λ o _, o)
       args (NpRandom (λ k, k) 0) (TorchRandom (λ k, 0%Q) 0).

Definition toy_run_loop (adam_losses : list Q) (args : value) : result (@loop_state nat) :=
  run_loop f32_add f32_sub [("mug", ())] [("mug", ())] (λ _ _, ([(0, 0, 0)%Q], [0%Q]))
           (Train.ResultsFile [] [] []) (λ _ _, 0) (λ o _ _, o)
           (toy_adam adam_losses) toy_lbfgs (λ o _, o)
           args (NpRandom (λ k, k) 0) (TorchRandom (λ k, 0%Q) 0).

(** An object that has the attributes of the parser and an attribute [args]
    with a learning rate, as line 151 reads it. *)
Definition nested_args (given : list (string * value)) : value :=
  match parse_args given with
  | VObj attrs => VObj (("args", VObj [("lr", VFloat 0.001)]) :: attrs)
  | v => v
  end.

(** C1. The phase of an epoch is decided by comparing the configured
    learning rate with itself times the fifth power of the multiplier.  The
    code reads the left side as [args.args.lr]: on the namespace of the
    parser the comparison raises in the first epoch, for any settings, and no
    phase runs. *)
Theorem phase_test_raises :
  (∀ (optim : Type) adam_epoch lbfgs_epoch scheduler_step given data
     (o : optim) code bl blc tl (epoch : nat),
     epoch_body adam_epoch lbfgs_epoch scheduler_step data
                (LoopState (parse_args given) o code bl blc tl) epoch
     = Raise (AttributeError "args"))
  ∧ toy_main [] (parse_args []) = (None, Raise (AttributeError "args"))
  ∧ toy_main [] (parse_args [("epochs", VInt 1); ("lr_multiplier", VFloat 1)])
    = (None, Raise (AttributeError "args")).
Proof.
  split; [intros; apply epoch_body_parse_args|].
  split; vm_compute; reflexivity.
Qed.

(** With the attribute in place the comparison is the same in every epoch:
    a multiplier below 1 keeps the adaptive phase, a multiplier of 1 gives
    the quasi-Newton phase from the first epoch and switches the scheduler
    off. *)
Example nested_args_adam :
  result_map (λ st, (training_loss st, getattr (st_args st) "lr_scheduler"))
             (toy_run_loop [3; 2]%Q (nested_args [("epochs", VInt 2); ("lr_scheduler", VBool true)]))
  = Ok ([3; 2]%Q, Ok (VBool true)).
Proof. vm_compute. reflexivity. Qed.

Example nested_args_lbfgs :
  result_map (λ st, (training_loss st, getattr (st_args st) "lr_scheduler"))
             (toy_run_loop [3; 2]%Q (nested_args [("epochs", VInt 2); ("lr_scheduler", VBool true);
                                                ("lr_multiplier", VFloat 1)]))
  = Ok ([7; 7]%Q, Ok (VBool false)).
Proof. vm_compute. reflexivity. Qed.

(** Two epochs with the losses 2,000,000 and 5: the code after the second
    epoch is saved.  Two epochs at 2,000,000, or no epoch: nothing is saved
    and the run ends on the unassigned variable. *)
Lemma best_latent_code_saved_witness :
  (∃ st l, toy_run_loop [2000000; 5]%Q (nested_args [("epochs", VInt 2); ("latent_size", VInt 1)])
           = Ok st
           ∧ best_latent_code st = Some [[2%Q]]
           ∧ l ∈ training_loss st ∧ (l < 1000000)%Q)
  ∧ toy_main [2000000; 2000000]%Q (nested_args [("epochs", VInt 2)])
    = (None, Raise (UnboundLocalError "best_latent_code"))
  ∧ toy_main [] (parse_args [("epochs", VInt 0)])
    = (None, Raise (UnboundLocalError "best_latent_code")).
Proof.
  split; [|split].
  - apply (best_latent_code_saved f32_add f32_sub [("mug", ())] [("mug", ())]
             (λ _ _, ([(0, 0, 0)%Q], [0%Q]))
             (Train.ResultsFile [] [] []) (λ _ _, 0) (λ o _ _, o)
             (toy_adam [2000000; 5]%Q) toy_lbfgs (λ o _, o)
             (nested_args [("epochs", VInt 2); ("latent_size", VInt 1)])
             (NpRandom (λ k, k) 0) (TorchRandom (λ k, 0%Q) 0)).
    vm_compute. reflexivity.
  - destruct (toy_run_loop [2000000; 2000000]%Q (nested_args [("epochs", VInt 2)]))
      as [st|e] eqn:Hrun; [|vm_compute in Hrun; discriminate Hrun].
    apply (proj1 (proj2 (best_latent_code_saved _ _ _ _ _ _ _ _ _ _ _ _ _ _)) st Hrun).
    vm_compute in Hrun. injection Hrun as <-. simpl.
    intros l Hl. repeat (apply elem_of_cons in Hl as [->|Hl]; [discriminate|]).
    inversion Hl.
  - destruct (toy_run_loop [] (parse_args [("epochs", VInt 0)]))
      as [st|e] eqn:Hrun; [|vm_compute in Hrun; discriminate Hrun].
    apply (proj1 (proj2 (best_latent_code_saved _ _ _ _ _ _ _ _ _ _ _ _ _ _)) st Hrun).
    vm_compute in Hrun. injection Hrun as <-. simpl.
    intros l Hl. inversion Hl.
Defined.

(** *** Further facts about the data acquisition *)


Lemma length_mask_select {A B} (m : list bool) (a : list A) (b : list B) :
  length a = length b → length (mask_select m a) = length (mask_select m b).
Proof.
  unfold mask_select. revert a b.
  induction m as [|x m IH]; intros [|y a] [|z b] Hlen; try reflexivity; try discriminate.
  csimpl. rewrite !filter_cons. csimpl. injection Hlen as Hlen.
  destruct (decide (x = true)); csimpl; [f_equal|]; now apply IH.
Qed.








(** Lines 57-58: the samples that are retained. *)
Definition retained (samples : list point * list Q) : list point * list Q :=
  (mask_select (near_surface_mask samples.2) samples.1,
   mask_select (near_surface_mask samples.2) samples.2).

Section GetDataFacts.
Context (fadd fsub : Q → Q → Q).
Context {mesh : Type}.
Context (objs_dict : list (string * mesh)) (samples_dict : list (string * unit)).
Context (sample_sdf_near_surface : mesh → Z → list point * list Q).

(** [get_data] once the settings are read and the object is selected: the
    touches on the retained samples, then the clamp. *)
Lemma get_data_steps (args : value) (g g1 : np_random) (i n touches : Z) (obj : string)
    (m : mesh) (clamp_on : value) (cv : Q) :
  attr_int args "index_objs_dict" = Ok i →
  select_object samples_dict.*1 i g = Ok (obj, g1) →
  dict_get objs_dict obj = Ok m →
  attr_int args "num_samples" = Ok n →
  attr_int args "touches" = Ok touches →
  getattr args "clamp" = Ok clamp_on →
  (truthy clamp_on = true → attr_num args "clamp_value" = Ok cv) →
  get_data fadd fsub objs_dict samples_dict sample_sdf_near_surface args g
  = let* t := simulate_touches fadd fsub touches
                (retained (sample_sdf_near_surface m n)).1
                (retained (sample_sdf_near_surface m n)).2 g1 in
    Ok (t.1.1, if truthy clamp_on then clamp cv <$> t.1.2 else t.1.2, t.2).
Proof.
  intros Hi Hsel Hm Hn Ht Hclamp Hcv. unfold get_data, retained.
  rewrite Hi, bind_Ok_l, Hsel, bind_Ok_l. cbn [fst snd].
  rewrite Hm, bind_Ok_l, Hn, bind_Ok_l.
  destruct (sample_sdf_near_surface m n) as [coords_temp sdf_temp]. cbn [fst snd].
  rewrite Ht, bind_Ok_l.
  destruct (simulate_touches _ _ _ _ _ _) as [[[c s] g2]|e]; [|reflexivity].
  rewrite !bind_Ok_l, Hclamp, bind_Ok_l. cbn [fst snd].
  destruct (truthy clamp_on); [|reflexivity].
  rewrite Hcv by reflexivity. reflexivity.
Qed.

(** C4. In [get_data] a sampled point is retained if and only if its signed
    distance lies strictly inside (−0.001, 0.001): without touches the call
    returns, position by position, exactly the sampled pairs in that band
    (the distances clamped when clamping is on).  Of the distances −0.01,
    −0.0005, 0, 0.0005, 0.01 it returns the middle three. *)
Theorem near_surface_retained :
  (∀ (args : value) (g g1 : np_random) (i n touches : Z) (obj : string) (m : mesh)
     (clamp_on : value) (cv : Q),
     attr_int args "index_objs_dict" = Ok i →
     select_object samples_dict.*1 i g = Ok (obj, g1) →
     dict_get objs_dict obj = Ok m →
     attr_int args "num_samples" = Ok n →
     attr_int args "touches" = Ok touches → (touches <= 0)%Z →
     getattr args "clamp" = Ok clamp_on →
     (truthy clamp_on = true → attr_num args "clamp_value" = Ok cv) →
     length (sample_sdf_near_surface m n).1 = length (sample_sdf_near_surface m n).2 →
     ∃ coords sdf_kept,
       get_data fadd fsub objs_dict samples_dict sample_sdf_near_surface args g
       = Ok (coords, if truthy clamp_on then clamp cv <$> sdf_kept else sdf_kept, g1)
       ∧ length coords = length sdf_kept
       ∧ ∀ p s, (p, s) ∈ zip coords sdf_kept
                ↔ (p, s) ∈ zip (sample_sdf_near_surface m n).1
                               (sample_sdf_near_surface m n).2
                  ∧ (-0.001 < s)%Q ∧ (s < 0.001)%Q)
  ∧ get_data fadd fsub [("mug", ())] [("mug", ())] (λ _ _, five_samples) (parse_args [])
             (NpRandom (λ k, k) 0)
    = Ok ([(0.01, 0, 0); (0.02, 0, 0); (0.5, 0, 0)]%Q, [-0.0005; 0; 0.0005]%Q,
          NpRandom (λ k, k) 1).
Proof.
  split; [|reflexivity].
  intros args g g1 i n touches obj m clamp_on cv Hi Hsel Hm Hn Ht Hle Hclamp Hcv Hlen.
  exists (retained (sample_sdf_near_surface m n)).1,
         (retained (sample_sdf_near_surface m n)).2.
  split; [|split].
  - rewrite (get_data_steps _ _ _ _ _ _ _ _ _ _ Hi Hsel Hm Hn Ht Hclamp Hcv).
    unfold simulate_touches. destruct (Z.ltb_spec 0 touches); [lia|]. reflexivity.
  - unfold retained. cbn [fst snd]. now apply length_mask_select.
  - intros p s. unfold retained. cbn [fst snd]. apply near_surface_pairs.
Qed.



(** X19. Without an object in [samples_dict] no data is returned: the draw
    of an object raises [ValueError], and an index below −1 raises
    [IndexError] on the empty list. *)
Theorem get_data_no_objects (args : value) (g : np_random) (i : Z) :
  attr_int args "index_objs_dict" = Ok i →
  get_data fadd fsub objs_dict [] sample_sdf_near_surface args g
  = Raise (if (i <? -1)%Z then IndexError else ValueError).
Proof.
  intros Hi. unfold get_data. rewrite Hi, bind_Ok_l. unfold select_object. simpl length.
  destruct (Z.ltb_spec i (-1)).
  - rewrite bool_decide_true by lia. destruct (Z.ltb_spec i (Z.of_nat 0)); [|lia]. simpl.
    unfold py_index. simpl length. destruct (Z.ltb_spec i 0); [|lia].
    destruct (Z.leb_spec 0 (Z.of_nat 0 + i)); [lia|]. reflexivity.
  - assert (bool_decide (i ≠ (-1)%Z) && (i <? Z.of_nat 0)%Z = false) as ->.
    { destruct (Z.ltb_spec i (Z.of_nat 0)); [|apply andb_false_r].
      rewrite bool_decide_false by lia. reflexivity. }
    reflexivity.
Qed.

End GetDataFacts.

(** The five distances of the specification with clamping on, the object
    drawn: the middle three samples come back. *)
Lemma near_surface_retained_witness :
  ∃ coords sdf_kept,
    get_data f32_add f32_sub [("mug", ())] [("mug", ())] (λ _ _, five_samples)
             (parse_args [("clamp", VBool true)]) (NpRandom (λ k, k) 0)
    = Ok (coords, clamp 0.1 <$> sdf_kept, NpRandom (λ k, k) 1)
    ∧ length coords = length sdf_kept
    ∧ ∀ p s, (p, s) ∈ zip coords sdf_kept
             ↔ (p, s) ∈ zip five_samples.1 five_samples.2
               ∧ (-0.001 < s)%Q ∧ (s < 0.001)%Q.
Proof.
  apply (proj1 (near_surface_retained f32_add f32_sub [("mug", ())] [("mug", ())]
                  (λ _ _, five_samples))
           (parse_args [("clamp", VBool true)]) (NpRandom (λ k, k) 0) (NpRandom (λ k, k) 1)
           (-1)%Z 5000%Z 0%Z "mug" () (VBool true) 0.1%Q);
    first [reflexivity | discriminate].
Defined.





Lemma get_data_no_objects_witness :
  get_data f32_add f32_sub ([] : list (string * unit)) [] (λ _ _, five_samples) (parse_args [])
           (NpRandom (λ k, k) 0)
  = Raise ValueError.
Proof.
  apply (get_data_no_objects f32_add f32_sub [] (λ _ _, five_samples) (parse_args [])
           (NpRandom (λ k, k) 0)
           (-1)).
  reflexivity.
Defined.

(** *** Further facts about the optimisation loop *)

Lemma lookup_attr_update (attrs : list (string * value)) (name name' : string) (v : value) :
  lookup_attr (update_attr attrs name v) name'
  = if bool_decide (name = name') then Some v else lookup_attr attrs name'.
Proof.
  induction attrs as [|[k w] attrs IH]; [reflexivity|]. simpl.
  destruct (bool_decide (k = name)) eqn:Hk; simpl.
  - apply bool_decide_eq_true in Hk as ->. now destruct (bool_decide (name = name')).
  - apply bool_decide_eq_false in Hk. rewrite IH.
    destruct (bool_decide (k = name')) eqn:Hk'; [|reflexivity].
    apply bool_decide_eq_true in Hk' as ->. now rewrite bool_decide_false by congruence.
Qed.

Lemma getattr_setattr (o o' : value) (name name' : string) (v : value) :
  setattr o name v = Ok o' →
  getattr o' name' = if bool_decide (name = name') then Ok v else getattr o name'.
Proof.
  destruct o; try discriminate. intros Hset. injection Hset as <-. simpl.
  rewrite lookup_attr_update. now destruct (bool_decide (name = name')).
Qed.

(** The test of line 151 does not read the attribute that the quasi-Newton
    phase assigns. *)
Lemma adam_phase_setattr (o o' : value) (v : value) :
  setattr o "lr_scheduler" v = Ok o' → adam_phase o' = adam_phase o.
Proof.
  intros Hset. unfold adam_phase.
  rewrite !(getattr_setattr _ _ _ _ _ Hset). reflexivity.
Qed.

Section LoopFacts.
Context {optim : Type}.
Context (adam_epoch : optim → latent → list point * list Q → loss_settings → Q
                      → optim * latent * Q).
Context (lbfgs_epoch : optim → latent → list point * list Q → loss_settings
                       → optim * latent * Q).
Context (scheduler_step : optim → Q → optim).

Abbreviation epoch_body := (epoch_body adam_epoch lbfgs_epoch scheduler_step).

(** What [best_loss] is while the loop runs. *)
Definition least_so_far (st : @loop_state optim) : Prop :=
  (∀ l, l ∈ training_loss st → (best_loss st <= l)%Q)
  ∧ ((best_latent_code st = None ∧ best_loss st = 1000000%Q)
     ∨ (∃ code, best_latent_code st = Some code
                ∧ best_loss st ∈ training_loss st ∧ (best_loss st < 1000000)%Q)).

Lemma epoch_body_least data (st st' : loop_state) (epoch : nat) :
  least_so_far st → epoch_body data st epoch = Ok st' → least_so_far st'.
Proof.
  intros [Hall Hbest] Hrun. unfold Infer.epoch_body in Hrun.
  apply bind_Ok in Hrun as (adam & _ & Hrun).
  apply bind_Ok in Hrun as ([[[args o] code] loss_value] & _ & Hrun).
  assert ((best_loss st <= 1000000)%Q) as Hle.
  { destruct Hbest as [(_ & ->)|(c & _ & _ & Hlt)];
      [apply Qle_refl | now apply Qlt_le_weak]. }
  destruct (Qltb loss_value (best_loss st)) eqn:Hlt;
    apply bind_Ok in Hrun as (sched & _ & Hrun); injection Hrun as <-;
    unfold least_so_far; simpl.
  - apply Qltb_lt in Hlt. split.
    + intros l Hl. apply elem_of_app in Hl as [Hl|Hl].
      * apply Qlt_le_weak. eapply Qlt_le_trans; [exact Hlt | now apply Hall].
      * apply list_elem_of_singleton in Hl as ->. apply Qle_refl.
    + right. exists code. split; [reflexivity|].
      split; [apply elem_of_app; right; apply list_elem_of_here|].
      eapply Qlt_le_trans; eassumption.
  - assert ((best_loss st <= loss_value)%Q) as Hge.
    { apply Qnot_lt_le. rewrite <- Qltb_lt, Hlt. discriminate. }
    split.
    + intros l Hl. apply elem_of_app in Hl as [Hl|Hl]; [now apply Hall|].
      now apply list_elem_of_singleton in Hl as ->.
    + destruct Hbest as [?|(c & Hc & Hin & Hlt')]; [now left|].
      right. exists c. split; [exact Hc|]. split; [|exact Hlt'].
      apply elem_of_app. now left.
Qed.

(** X20. The loop keeps the least loss: from a state whose best loss is the
    sentinel with nothing recorded, after any number of completed epochs no
    recorded loss is below [best_loss]; [best_loss] is still the sentinel
    exactly when no code is kept, and otherwise it is one of the recorded
    losses and below the sentinel. *)
Theorem best_loss_is_least data (epochs : list nat) (args : value) (o : optim)
    (code : latent) (st : loop_state) :
  foldM (epoch_body data) (LoopState args o code 1000000%Q None []) epochs = Ok st →
  (∀ l, l ∈ training_loss st → (best_loss st <= l)%Q)
  ∧ (best_latent_code st = None → best_loss st = 1000000%Q)
  ∧ (∀ kept, best_latent_code st = Some kept →
       best_loss st ∈ training_loss st ∧ (best_loss st < 1000000)%Q).
Proof.
  intros Hrun.
  assert (least_so_far st) as [Hall Hbest].
  { revert Hrun. apply (foldM_invariant least_so_far);
      [intros s a s'; apply epoch_body_least|].
    split; [intros l Hl; inversion Hl | now left]. }
  split; [exact Hall|].
  destruct Hbest as [(Hnone & Hs)|(c & Hc & Hin & Hlt)].
  - split; [intros _; exact Hs|]. intros kept Hk. congruence.
  - split; [intros Hnone; congruence|]. intros kept _. now split.
Qed.

Lemma epoch_body_phase data (st st' : loop_state) (epoch : nat) :
  epoch_body data st epoch = Ok st' →
  ∃ adam, adam_phase (st_args st) = Ok adam
    ∧ adam_phase (st_args st') = Ok adam
    ∧ if adam then st_args st' = st_args st
      else getattr (st_args st') "lr_scheduler" = Ok (VBool false).
Proof.
  intros Hrun. unfold Infer.epoch_body in Hrun.
  apply bind_Ok in Hrun as (adam & Hadam & Hrun). exists adam.
  split; [exact Hadam|].
  apply bind_Ok in Hrun as ([[[args o] code] loss_value] & Hphase & Hrun).
  destruct adam.
  - apply bind_Ok in Hphase as (settings & _ & Hphase).
    apply bind_Ok in Hphase as (noise & _ & Hphase).
    destruct (adam_epoch _ _ _ _ _) as [[o1 c1] l1]. injection Hphase as <- _ _ _.
    destruct (Qltb loss_value (best_loss st));
      apply bind_Ok in Hrun as (sched & _ & Hrun); injection Hrun as <-; now split.
  - apply bind_Ok in Hphase as (args' & Hset & Hphase).
    apply bind_Ok in Hphase as (settings & _ & Hphase).
    destruct (lbfgs_epoch _ _ _ _) as [[o1 c1] l1]. injection Hphase as <- _ _ _.
    pose proof (adam_phase_setattr _ _ _ Hset) as Hsame.
    pose proof (getattr_setattr _ _ _ "lr_scheduler" _ Hset) as Hget.
    rewrite bool_decide_true in Hget by reflexivity.
    destruct (Qltb loss_value (best_loss st));
      apply bind_Ok in Hrun as (sched & _ & Hrun); injection Hrun as <-; simpl;
      (split; [congruence | exact Hget]).
Qed.

(** X21. The phase never changes during a run: the test of line 151 reads
    settings that no epoch assigns, so after any number of completed epochs
    it gives what it gave before the first.  A run in the adaptive phase
    leaves the settings as they were; a run in the quasi-Newton phase leaves
    [lr_scheduler] false. *)
Theorem phase_never_changes data (epochs : list nat) (st st' : loop_state) :
  epochs ≠ [] → foldM (epoch_body data) st epochs = Ok st' →
  ∃ adam, adam_phase (st_args st) = Ok adam
    ∧ adam_phase (st_args st') = Ok adam
    ∧ if adam then st_args st' = st_args st
      else getattr (st_args st') "lr_scheduler" = Ok (VBool false).
Proof.
  revert st. induction epochs as [|epoch epochs IH]; intros st Hne Hrun; [congruence|].
  simpl in Hrun. apply bind_Ok in Hrun as (st1 & Hbody & Hrun).
  apply epoch_body_phase in Hbody as (adam & Hadam & Hadam1 & Hargs).
  exists adam. split; [exact Hadam|].
  destruct epochs as [|epoch' epochs].
  - injection Hrun as <-. now split.
  - destruct (IH st1 ltac:(discriminate) Hrun) as (adam' & Ha & Ha' & Hargs').
    assert (adam' = adam) as -> by congruence.
    split; [exact Ha'|]. destruct adam; [congruence | exact Hargs'].
Qed.

End LoopFacts.

(** Two epochs at the losses 2,000,000 and 5: the best loss is 5. *)
Lemma best_loss_is_least_witness :
  ∃ st, foldM (epoch_body (toy_adam [2000000; 5]%Q) toy_lbfgs (λ o _, o) ([], []))
              (LoopState (nested_args []) 0 [[0%Q]] 1000000%Q None []) [0; 1]
        = Ok st
        ∧ ∀ l, l ∈ training_loss st → (best_loss st <= l)%Q.
Proof.
  destruct (foldM (epoch_body (toy_adam [2000000; 5]%Q) toy_lbfgs (λ o _, o) ([], []))
              (LoopState (nested_args []) 0 [[0%Q]] 1000000%Q None []) [0; 1])
    as [st|e] eqn:Hrun.
  - exists st. split; [reflexivity|].
    apply (best_loss_is_least (toy_adam [2000000; 5]%Q) toy_lbfgs (λ o _, o) ([], [])
             [0; 1] (nested_args []) 0 [[0%Q]] st Hrun).
  - vm_compute in Hrun. discriminate Hrun.
Defined.

(** Two epochs with a multiplier of 1: the quasi-Newton phase, before and
    after. *)
Lemma phase_never_changes_witness :
  ∃ st, foldM (epoch_body (toy_adam []) toy_lbfgs (λ o _, o) ([], []))
              (LoopState (nested_args [("lr_multiplier", VFloat 1)]) 0 [[0%Q]]
                         1000000%Q None []) [0; 1]
        = Ok st
        ∧ adam_phase (st_args st) = Ok false
        ∧ getattr (st_args st) "lr_scheduler" = Ok (VBool false).
Proof.
  destruct (foldM (epoch_body (toy_adam []) toy_lbfgs (λ o _, o) ([], []))
              (LoopState (nested_args [("lr_multiplier", VFloat 1)]) 0 [[0%Q]]
                         1000000%Q None []) [0; 1])
    as [st|e] eqn:Hrun.
  - exists st. split; [reflexivity|].
    destruct (phase_never_changes (toy_adam []) toy_lbfgs (λ o _, o) ([], []) [0; 1]
                (LoopState (nested_args [("lr_multiplier", VFloat 1)]) 0 [[0%Q]]
                           1000000%Q None []) st ltac:(discriminate) Hrun)
      as (adam & Hbefore & Hafter & Hsched).
    assert (adam = false) as -> by (vm_compute in Hbefore; congruence).
    split; assumption.
  - vm_compute in Hrun. discriminate Hrun.
Defined.

Lemma simulate_touches_empty_witness :
  simulate_touches f32_add f32_sub 2 [] [] (NpRandom (λ k, k) 0) = Raise ValueError.
Proof.
  apply (simulate_touches_empty f32_add f32_sub 2 [] (NpRandom (λ k, k) 0)). reflexivity.
Defined.

Lemma select_object_valid_witness :
  select_object ["a"; "b"; "c"] 1 (NpRandom (λ k, k) 0) = Ok ("b", NpRandom (λ k, k) 0).
Proof. apply (select_object_valid ["a"; "b"; "c"] 1 (NpRandom (λ k, k) 0)). simpl. lia. Defined.

Lemma select_object_random_witness :
  select_object ["a"; "b"; "c"] 7 (NpRandom (λ k, S k) 0) = Ok ("b", NpRandom (λ k, S k) 1).
Proof.
  apply (select_object_random ["a"; "b"; "c"] 7 (NpRandom (λ k, S k) 0)).
  - discriminate.
  - right. simpl. lia.
Defined.

End Infer.
